(** * hetzner-private-dns-sync: a shallow embedding of [src/main.rs]

    The program keeps a JSON state file ([State]) listing the servers whose
    DNS A-records it created, asks the Hetzner Cloud API which servers are
    attached to a private network, and creates/deletes DNS records through
    an RFC 2136 client until both agree.

    The embedding is a state-and-error monad [M] over a [World] that holds
    the in-memory [State] ([current_state.data]), the state whose
    serialisation was last written by [StateWrapper::save] ([w_saved]), the
    bytes of [state.json] ([w_file]), and the log of every external call
    made so far ([w_log]), each with its outcome.  The external services
    (Hetzner API, DNS server, the file system and the iteration order of a
    [HashSet]) are the fields of an [Env] record; the DNS and file-system
    answers may depend on the whole history of calls, so any failure pattern
    (e.g. "the third delete fails") is an [Env]. *)

From Stdlib Require Import String Ascii List ZArith Bool Lia Permutation.
Import ListNotations.
Open Scope list_scope.

(** ** Data model ([struct Server], [struct State]) *)

(** [struct Server { id: i64, ip_address: String, hostname: String }] *)
Record Server := mkServer {
  id : Z;
  ip_address : string;
  hostname : string;
}.

(** [struct State { private_network_name: String, servers_synced: Vec<Server> }] *)
Record State := mkState {
  private_network_name : string;
  servers_synced : list Server;
}.

(** [State::default()] *)
Definition State_default : State := mkState EmptyString [].

Definition set_private_network_name (n : string) (st : State) : State :=
  mkState n (servers_synced st).

Definition set_servers_synced (l : list Server) (st : State) : State :=
  mkState (private_network_name st) l.

(** [Vec::retain(|s| s.id != server_id)] *)
Definition retain_not_id (server_id : Z) (l : list Server) : list Server :=
  filter (fun s => negb (Z.eqb (id s) server_id)) l.

Definition server_ids_of (l : list Server) : list Z := map id l.

(** ** JSON serialisation ([serde_json::to_writer], compact form) *)

Definition c_quote : ascii := ascii_of_nat 34.
Definition c_bslash : ascii := ascii_of_nat 92.

Definition hex_digit (n : nat) : ascii :=
  if Nat.ltb n 10 then ascii_of_nat (48 + n) else ascii_of_nat (87 + n).

(** serde_json's escape table: the double quote and the backslash are escaped, the control
    characters [\b \t \n \f \r] get their short form, the other bytes
    below 0x20 are written [\u00XX] with lower-case hex digits; every other
    byte (including UTF-8 continuation bytes) is copied. *)
Definition escape_char (c : ascii) : string :=
  let n := nat_of_ascii c in
  if Nat.eqb n 34 then String c_bslash (String c_quote EmptyString)
  else if Nat.eqb n 92 then String c_bslash (String c_bslash EmptyString)
  else if Nat.eqb n 8 then String c_bslash (String "b" EmptyString)
  else if Nat.eqb n 9 then String c_bslash (String "t" EmptyString)
  else if Nat.eqb n 10 then String c_bslash (String "n" EmptyString)
  else if Nat.eqb n 12 then String c_bslash (String "f" EmptyString)
  else if Nat.eqb n 13 then String c_bslash (String "r" EmptyString)
  else if Nat.ltb n 32 then
    String c_bslash (String "u" (String "0" (String "0"
      (String (hex_digit (n / 16)) (String (hex_digit (n mod 16)) EmptyString)))))
  else String c EmptyString.

Fixpoint escape (s : string) : string :=
  match s with
  | EmptyString => EmptyString
  | String c s' => append (escape_char c) (escape s')
  end.

Definition json_string (s : string) : string :=
  String c_quote (append (escape s) (String c_quote EmptyString)).

(** Decimal digits of a non-negative integer, most significant first; the
    fuel (64) exceeds the 19 digits of any [i64]. *)
Fixpoint dec_aux (fuel : nat) (n : Z) (acc : string) : string :=
  match fuel with
  | O => acc
  | S f =>
      let acc' := String (ascii_of_nat (48 + Z.to_nat (n mod 10))) acc in
      if Z.ltb n 10 then acc' else dec_aux f (n / 10) acc'
  end.

(** [itoa] for an [i64]. *)
Definition z_to_dec (z : Z) : string :=
  if Z.ltb z 0 then String "-" (dec_aux 64 (- z) EmptyString)
  else dec_aux 64 z EmptyString.

Fixpoint join_comma (l : list string) : string :=
  match l with
  | [] => EmptyString
  | [x] => x
  | x :: r => append x (String "," (join_comma r))
  end.

(** [#[derive(Serialize)] struct Server] *)
Definition serialize_server (s : Server) : string :=
  append "{"
  (append (json_string "id") (append ":" (append (z_to_dec (id s))
  (append "," (append (json_string "ip_address") (append ":" (append (json_string (ip_address s))
  (append "," (append (json_string "hostname") (append ":" (append (json_string (hostname s))
  "}"))))))))))).

(** [#[derive(Serialize)] struct State] *)
Definition serialize_state (st : State) : string :=
  append "{"
  (append (json_string "private_network_name") (append ":"
  (append (json_string (private_network_name st))
  (append "," (append (json_string "servers_synced") (append ":"
  (append "[" (append (join_comma (map serialize_server (servers_synced st)))
  "]}")))))))).

(** Writing [data] at offset 0 of a file whose bytes are [file]: the bytes
    of [data] replace the first bytes of the file, the file grows when
    [data] is longer, and the bytes past the end of [data] stay. *)
Fixpoint write_at_start (data file : string) : string :=
  match data, file with
  | EmptyString, _ => file
  | String c d, EmptyString => String c d
  | String c d, String _ f => String c (write_at_start d f)
  end.

(** The bytes of [s] after the first [n]. *)
Fixpoint string_drop (n : nat) (s : string) : string :=
  match n, s with
  | O, _ => s
  | S _, EmptyString => EmptyString
  | S n', String _ s' => string_drop n' s'
  end.

(** ** External services *)

(** [dns_update::Error]: only the [Response] variant is singled out by
    [add_server]; every other variant is [OtherError]. *)
Inductive DnsError :=
| ResponseError (resp_text : string)
| OtherError.

Inductive dns_result :=
| DnsOk
| DnsErr (e : DnsError).

(** External calls, each logged with its outcome. *)
Inductive event :=
| EvListNetworks (servers : option (list Z))
| EvGetServer (server_id : Z) (ok : bool)
| EvCreate (fqdn addr : string) (ttl : Z) (r : dns_result)
| EvUpdate (fqdn addr : string) (ttl : Z) (ok : bool)
| EvDelete (fqdn : string) (ok : bool)
| EvSave (data : State) (ok : bool).

(** The services the program talks to.
    - [env_server_ids]: the [servers] field of the first network returned
      by [list_networks(name)], or [None] when the call fails or no network
      has that name ([HCloudWrapper::server_ids]; called once per run).
    - [env_get_server]: for [get_server(id)], the private IP on the target
      network and the server name, or [None] on any failure of
      [hydrate_server_list] for that id.
    - [env_parse_ip]: [str::parse::<IpAddr>] (the parsed address, printed).
    - [env_create], [env_update], [env_delete]: the DNS server's answer,
      given the history of calls.
    - [env_write]: whether [seek] + [serde_json::to_writer] succeed; a
      failing save writes nothing.
    - [env_pick]: the iteration order of a [HashSet]: from the remaining
      elements the iterator yields the one at index [env_pick rest]
      (modulo the number of remaining elements). *)
Record Env := mkEnv {
  env_server_ids : option (list Z);
  env_get_server : Z -> option (string * string);
  env_parse_ip : string -> option string;
  env_create : list event -> string -> string -> Z -> dns_result;
  env_update : list event -> string -> string -> Z -> bool;
  env_delete : list event -> string -> bool;
  env_write : list event -> bool;
  env_pick : list Z -> nat;
}.

(** Errors returned by [main] ([anyhow::Error]), and the panic of the
    [unwrap] in the removal loop. *)
Inductive err :=
| ErrNetworkChangeDenied
| ErrHCloud
| ErrIpParse
| ErrDns
| ErrSave
| ErrUnwrapNone.

Inductive result (A : Type) :=
| Ok (a : A)
| Err (e : err).
Arguments Ok {A} a.
Arguments Err {A} e.

Record World := mkWorld {
  w_state : State;
  w_saved : State;
  w_file : string;
  w_log : list event;
}.

Definition M (A : Type) : Type := World -> result A * World.

Definition ret {A} (a : A) : M A := fun w => (Ok a, w).

Definition bind {A B} (m : M A) (f : A -> M B) : M B :=
  fun w =>
    match m w with
    | (Ok a, w') => f a w'
    | (Err e, w') => (Err e, w')
    end.

Definition fail {A} (e : err) : M A := fun w => (Err e, w).

Notation "x <- m ;; k" := (bind m (fun x => k))
  (at level 61, m at next level, right associativity).
Notation "m ;;; k" := (bind m (fun _ => k))
  (at level 61, right associativity).

Definition get_state : M State := fun w => (Ok (w_state w), w).

Definition modify_state (f : State -> State) : M unit :=
  fun w => (Ok tt, mkWorld (f (w_state w)) (w_saved w) (w_file w) (w_log w)).

Definition log_event (ev : event) (w : World) : World :=
  mkWorld (w_state w) (w_saved w) (w_file w) (w_log w ++ [ev]).

Definition ask_log : M (list event) := fun w => (Ok (w_log w), w).

Definition emit (ev : event) : M unit := fun w => (Ok tt, log_event ev w).

Definition is_empty {A} (l : list A) : bool :=
  match l with [] => true | _ => false end.

Definition zmem (x : Z) (l : list Z) : bool := existsb (Z.eqb x) l.

(** ** [HashSet<i64>] *)

Section HashSet.
Variable pick : list Z -> nat.

Definition remove_nth (i : nat) (l : list Z) : list Z :=
  firstn i l ++ skipn (S i) l.

(** The iteration order of a set with elements [l] (no duplicates). *)
Fixpoint hs_iter_fuel (fuel : nat) (l : list Z) : list Z :=
  match fuel with
  | O => []
  | S f =>
      match l with
      | [] => []
      | _ :: _ =>
          let i := pick l mod length l in
          nth i l 0%Z :: hs_iter_fuel f (remove_nth i l)
      end
  end.

(** [iter.collect::<HashSet<i64>>()], as the list of its elements in
    iteration order. *)
Definition hs_collect (xs : list Z) : list Z :=
  let s := nodup Z.eq_dec xs in hs_iter_fuel (length s) s.

(** [a.difference(&b).cloned().collect::<Vec<i64>>()] *)
Definition hs_difference (a b : list Z) : list Z :=
  filter (fun x => negb (zmem x b)) a.
End HashSet.

(** ** The program *)

Section Program.
Variable env : Env.
(** [DnsUpdaterWrapper::zone_name] *)
Variable zone_name : string.

(** [StateWrapper::save]: seek to offset 0 and write the JSON of the
    in-memory state; the file is not truncated. *)
Definition save : M unit :=
  fun w =>
    let ok := env_write env (w_log w) in
    let w1 := log_event (EvSave (w_state w) ok) w in
    if ok then
      (Ok tt, mkWorld (w_state w1) (w_state w)
                (write_at_start (serialize_state (w_state w)) (w_file w1))
                (w_log w1))
    else (Err ErrSave, w1).

Definition dns_create (fqdn addr : string) (ttl : Z) : M dns_result :=
  h <- ask_log ;;
  let r := env_create env h fqdn addr ttl in
  emit (EvCreate fqdn addr ttl r) ;;; ret r.

Definition dns_update (fqdn addr : string) (ttl : Z) : M bool :=
  h <- ask_log ;;
  let ok := env_update env h fqdn addr ttl in
  emit (EvUpdate fqdn addr ttl ok) ;;; ret ok.

Definition dns_delete (fqdn : string) : M bool :=
  h <- ask_log ;;
  let ok := env_delete env h fqdn in
  emit (EvDelete fqdn ok) ;;; ret ok.

(** [format!("{}.{}", server.hostname, self.zone_name)] *)
Definition server_fqdn (s : Server) : string :=
  append (hostname s) (String "." zone_name).

(** [DnsUpdaterWrapper::add_server] *)
Definition add_server (s : Server) : M unit :=
  let fqdn := server_fqdn s in
  match env_parse_ip env (ip_address s) with
  | None => fail ErrIpParse
  | Some addr =>
      r <- dns_create fqdn addr 600 ;;
      match r with
      | DnsOk => ret tt
      | DnsErr (ResponseError _) =>
          ok <- dns_update fqdn addr 600 ;;
          if ok then ret tt else fail ErrDns
      | DnsErr OtherError => fail ErrDns
      end
  end.

(** [DnsUpdaterWrapper::remove_server] *)
Definition remove_server (s : Server) : M unit :=
  ok <- dns_delete (server_fqdn s) ;;
  if ok then ret tt else fail ErrDns.

(** [HCloudWrapper::server_ids] *)
Definition server_ids : M (list Z) :=
  let r := env_server_ids env in
  emit (EvListNetworks r) ;;;
  match r with
  | Some ids => ret ids
  | None => fail ErrHCloud
  end.

(** [HCloudWrapper::hydrate_server_list] (the network is cached by
    [server_ids], so no further [list_networks] call is made). *)
Fixpoint hydrate_server_list (ids : list Z) : M (list Server) :=
  match ids with
  | [] => ret []
  | server_id :: rest =>
      match env_get_server env server_id with
      | None => emit (EvGetServer server_id false) ;;; fail ErrHCloud
      | Some (ip, name) =>
          emit (EvGetServer server_id true) ;;;
          hs <- hydrate_server_list rest ;;
          ret (mkServer server_id ip name :: hs)
      end
  end.

(** [main], lines 333-340: the removal loop over a clone of
    [servers_synced] when the network name changed. *)
Fixpoint drain_servers (l : list Server) : M unit :=
  match l with
  | [] => ret tt
  | s :: rest =>
      remove_server s ;;;
      modify_state (fun st => set_servers_synced (retain_not_id (id s) (servers_synced st)) st) ;;;
      save ;;;
      drain_servers rest
  end.

(** [main], lines 326-350. *)
Definition network_change (net : string) (allow : bool) : M unit :=
  st <- get_state ;;
  if negb (String.eqb (private_network_name st) net) then
    if negb (is_empty (servers_synced st)) then
      if negb allow then fail ErrNetworkChangeDenied
      else
        drain_servers (servers_synced st) ;;;
        modify_state (set_private_network_name net) ;;;
        save
    else
      modify_state (set_private_network_name net) ;;;
      save
  else ret tt.

(** [main], lines 352-362: the two differences. *)
Definition compute_diff : M (list Z * list Z) :=
  st <- get_state ;;
  let server_ids_from_state := hs_collect (env_pick env) (server_ids_of (servers_synced st)) in
  ids <- server_ids ;;
  let current_servers := hs_collect (env_pick env) ids in
  let servers_to_add := hs_difference current_servers server_ids_from_state in
  let servers_to_remove := hs_difference server_ids_from_state current_servers in
  ret (servers_to_add, servers_to_remove).

(** [main], lines 373-378. *)
Fixpoint add_loop (l : list Server) : M unit :=
  match l with
  | [] => ret tt
  | s :: rest =>
      add_server s ;;;
      modify_state (fun st => set_servers_synced (servers_synced st ++ [s]) st) ;;;
      save ;;;
      add_loop rest
  end.

(** [main], lines 382-393; [ErrUnwrapNone] is the panic of [unwrap]. *)
Fixpoint remove_loop (ids : list Z) : M unit :=
  match ids with
  | [] => ret tt
  | server_id :: rest =>
      st <- get_state ;;
      match find (fun s => Z.eqb (id s) server_id) (servers_synced st) with
      | None => fail ErrUnwrapNone
      | Some s =>
          remove_server s ;;;
          modify_state (fun st => set_servers_synced (retain_not_id (id s) (servers_synced st)) st) ;;;
          save ;;;
          remove_loop rest
      end
  end.

(** [main], lines 352-379: diff, hydration and additions; returns
    [servers_to_remove]. *)
Definition add_stage : M (list Z) :=
  d <- compute_diff ;;
  let '(servers_to_add, servers_to_remove) := d in
  hs <- hydrate_server_list servers_to_add ;;
  (if negb (is_empty hs) then add_loop hs else ret tt) ;;;
  ret servers_to_remove.

(** [main], lines 381-394. *)
Definition remove_stage (servers_to_remove : list Z) : M unit :=
  if negb (is_empty servers_to_remove) then remove_loop servers_to_remove else ret tt.

(** The body of [main] after the state is loaded. *)
Definition main_body (net : string) (allow : bool) : M unit :=
  network_change net allow ;;;
  removes <- add_stage ;;
  remove_stage removes.

Inductive outcome :=
| Done
| Failed (e : err)
| Panicked.

(** [main] from the loaded state [st0] read from a file holding [file0]:
    the body, then [Drop for StateWrapper], which saves again and panics
    when that save fails. *)
Definition main_run (net : string) (allow : bool) (st0 : State) (file0 : string)
  : outcome * World :=
  let '(r, w1) := main_body net allow (mkWorld st0 st0 file0 []) in
  let '(r2, w2) := save w1 in
  match r2, r with
  | Err _, _ => (Panicked, w2)
  | Ok _, Ok _ => (Done, w2)
  | Ok _, Err e => (Failed e, w2)
  end.

End Program.

(** The run ended in the panic of the [unwrap] of the removal loop. *)
Definition is_unwrap_panic {A} (r : result A) : bool :=
  match r with
  | Err ErrUnwrapNone => true
  | _ => false
  end.

(** The events of a rename clean-up of [l] (network [old]) that succeeds:
    each server gets one delete, then the state without it is saved. *)
Fixpoint drain_trace (zone old : string) (l : list Server) : list event :=
  match l with
  | [] => []
  | s :: rest =>
      EvDelete (server_fqdn zone s) true :: EvSave (mkState old rest) true ::
      drain_trace zone old rest
  end.

(** Calls whose failure makes [main] return an error. *)
Definition aborts (ev : event) : bool :=
  match ev with
  | EvListNetworks None => true
  | EvGetServer _ false => true
  | EvCreate _ _ _ (DnsErr OtherError) => true
  | EvUpdate _ _ _ false => true
  | EvDelete _ false => true
  | EvSave _ false => true
  | _ => false
  end.

(** Failed DNS calls that are fatal. *)
Definition dns_failure (ev : event) : bool :=
  match ev with
  | EvCreate _ _ _ (DnsErr OtherError) => true
  | EvUpdate _ _ _ false => true
  | EvDelete _ false => true
  | _ => false
  end.

(** DNS calls that changed the zone. *)
Definition dns_write_ok (ev : event) : bool :=
  match ev with
  | EvCreate _ _ _ DnsOk => true
  | EvUpdate _ _ _ true => true
  | EvDelete _ true => true
  | _ => false
  end.

(** Every DNS write of the log is directly followed by a save attempt. *)
Fixpoint saved_after_writes (l : list event) : bool :=
  match l with
  | [] => true
  | ev :: rest =>
      (if dns_write_ok ev then
         match rest with EvSave _ _ :: _ => true | _ => false end
       else true) && saved_after_writes rest
  end.

Fixpoint ends_with_write (l : list event) : bool :=
  match l with
  | [] => false
  | [ev] => dns_write_ok ev
  | _ :: rest => ends_with_write rest
  end.

Definition closed_log (l : list event) : bool :=
  saved_after_writes l && negb (ends_with_write l).

Definition is_delete (ev : event) : bool :=
  match ev with
  | EvDelete _ _ => true
  | _ => false
  end.

(** A computation that issues no DNS delete. *)
Definition NoDelete {A} (m : M A) : Prop :=
  forall w r w', m w = (r, w') ->
  exists new, w_log w' = w_log w ++ new /\ forallb (fun ev => negb (is_delete ev)) new = true.

(** ** The Hetzner Cloud wrapper in detail *)

(** [HCloudWrapper] with its network cache, the API objects it reads and
    the calls it makes. The model of [main] above sees this wrapper
    through [env_server_ids] and [env_get_server]. *)
Module HCloud.

(** [hcloud::models::Network], the fields that are read. *)
Record Network := mkNetwork {
  network_id : Z;
  network_servers : list Z;
}.

(** An entry of [Server::private_net]: [network: Option<i64>],
    [ip: Option<String>]. *)
Record PrivateNet := mkPrivateNet {
  pn_network : option Z;
  pn_ip : option string;
}.

(** The fields of [hcloud::models::Server] that are read. *)
Record ServerInfo := mkServerInfo {
  si_name : string;
  si_private_net : list PrivateNet;
}.

(** The API: [list_networks] filtered by name, and [get_server] whose
    response has an optional [server] field; [None] is a failed request. *)
Record Api := mkApi {
  api_list_networks : string -> option (list Network);
  api_get_server : Z -> option (option ServerInfo);
}.

Inductive call :=
| CallListNetworks (name : string)
| CallGetServer (server_id : Z).

Record HCloudWrapper := mkHCloudWrapper {
  network_name : string;
  network_info : option Network;
}.

(** The [anyhow] errors of the wrapper, and the panic of an [unwrap]. *)
Inductive herr :=
| ErrRequest
| ErrNetworkNotFound
| ErrServerMissing
| ErrNoAttachment
| ErrUnwrap.

(** The wrapper and the calls made so far. *)
Definition HM (A : Type) : Type :=
  HCloudWrapper * list call -> (A + herr) * (HCloudWrapper * list call).

Definition hret {A} (a : A) : HM A := fun s => (inl a, s).

Definition hbind {A B} (m : HM A) (f : A -> HM B) : HM B :=
  fun s =>
    match m s with
    | (inl a, s1) => f a s1
    | (inr e, s1) => (inr e, s1)
    end.

Section Wrapper.
Variable api : Api.

(** [HCloudWrapper::retrieve_network]; a list of more than one network
    only logs a warning. *)
Definition retrieve_network : HM unit :=
  fun '(h, cs) =>
    match network_info h with
    | Some _ => (inl tt, (h, cs))
    | None =>
        let cs1 := cs ++ [CallListNetworks (network_name h)] in
        match api_list_networks api (network_name h) with
        | None => (inr ErrRequest, (h, cs1))
        | Some [] => (inr ErrNetworkNotFound, (h, cs1))
        | Some (n :: _) => (inl tt, (mkHCloudWrapper (network_name h) (Some n), cs1))
        end
    end.

(** [self.network_info.as_ref().unwrap()] *)
Definition network_unwrap : HM Network :=
  fun s =>
    match network_info (fst s) with
    | Some n => (inl n, s)
    | None => (inr ErrUnwrap, s)
    end.

(** [HCloudWrapper::server_ids] *)
Definition server_ids : HM (list Z) :=
  hbind retrieve_network (fun _ =>
  hbind network_unwrap (fun n => hret (network_servers n))).

(** [server_info.private_net.iter().find(|n| n.network.is_some_and(|nid|
    nid == network_id)).and_then(|n| n.ip.clone())] *)
Definition private_ip (network_id : Z) (pns : list PrivateNet) : option string :=
  match find (fun n => match pn_network n with
                       | Some nid => Z.eqb nid network_id
                       | None => false
                       end) pns with
  | Some n => pn_ip n
  | None => None
  end.

(** The [for] loop of [hydrate_server_list], with [hydrated_servers] as
    an accumulator. *)
Fixpoint hydrate_loop (network_id : Z) (hydrated : list Server) (ids : list Z)
  : HM (list Server) :=
  match ids with
  | [] => hret hydrated
  | server_id :: rest =>
      fun '(h, cs) =>
        let s1 := (h, cs ++ [CallGetServer server_id]) in
        match api_get_server api server_id with
        | None => (inr ErrRequest, s1)
        | Some None => (inr ErrServerMissing, s1)
        | Some (Some si) =>
            match private_ip network_id (si_private_net si) with
            | None => (inr ErrNoAttachment, s1)
            | Some ip =>
                hydrate_loop network_id
                  (hydrated ++ [mkServer server_id ip (si_name si)]) rest s1
            end
        end
  end.

(** [HCloudWrapper::hydrate_server_list] *)
Definition hydrate_server_list (ids : list Z) : HM (list Server) :=
  hbind retrieve_network (fun _ =>
  hbind network_unwrap (fun n => hydrate_loop (network_id n) [] ids)).

(** What [main]'s model reads of [get_server] for a server: its private IP
    on the network and its name, or [None] when [hydrate_server_list]
    fails for it. *)
Definition get_server_view (network_id : Z) (server_id : Z) : option (string * string) :=
  match api_get_server api server_id with
  | Some (Some si) =>
      match private_ip network_id (si_private_net si) with
      | Some ip => Some (ip, si_name si)
      | None => None
      end
  | _ => None
  end.

End Wrapper.

(** A network with servers 1 and 2 (twice); server 2 is attached to it
    twice, first without an IP. *)
Definition net_a : Network := mkNetwork 7 [1; 2]%Z.
Definition api_ex : Api :=
  mkApi (fun _ => Some [net_a; mkNetwork 8 []])
    (fun x => if Z.eqb x 1 then
                Some (Some (mkServerInfo "web"
                  [mkPrivateNet (Some 9%Z) (Some "10.1.0.2"%string);
                   mkPrivateNet (Some 7%Z) (Some "10.0.0.2"%string)]))
              else if Z.eqb x 2 then
                Some (Some (mkServerInfo "db"
                  [mkPrivateNet (Some 7%Z) None;
                   mkPrivateNet (Some 7%Z) (Some "10.0.0.3"%string)]))
              else Some None).

End HCloud.

(** ** Concrete inputs *)

(** Every external call succeeds; the network has no member. *)
Definition env_all_ok : Env :=
  mkEnv (Some []) (fun _ => None) (fun a => Some a)
    (fun _ _ _ _ => DnsOk) (fun _ _ _ _ => true) (fun _ _ => true)
    (fun _ => true) (fun _ => 0).

Definition srv_web : Server := mkServer 1 "10.0.0.2" "web".
Definition srv_db : Server := mkServer 2 "10.0.0.3" "db".
Definition srv_gone : Server := mkServer 3 "10.0.0.4" "gone".
Definition zone_ex : string := "example.com".

(** The network reports servers 2, 1 and again 2; the servers API knows
    servers 1 and 2. *)
Definition members_get_server (x : Z) : option (string * string) :=
  if Z.eqb x 1 then Some ("10.0.0.2", "web")%string
  else if Z.eqb x 2 then Some ("10.0.0.3", "db")%string
  else None.

Definition env_members : Env :=
  mkEnv (Some [2; 1; 2]%Z) members_get_server (fun a => Some a)
    (fun _ _ _ _ => DnsOk) (fun _ _ _ _ => true) (fun _ _ => true)
    (fun _ => true) (fun _ => 0).

(** Deleting the record of [db] fails. *)
Definition env_db_delete_fails : Env :=
  mkEnv (Some []) (fun _ => None) (fun a => Some a)
    (fun _ _ _ _ => DnsOk) (fun _ _ _ _ => true)
    (fun _ fqdn => negb (String.eqb fqdn "db.example.com"))
    (fun _ => true) (fun _ => 0).

(** The record to create already exists. *)
Definition env_record_exists : Env :=
  mkEnv (Some []) (fun _ => None) (fun a => Some a)
    (fun _ _ _ _ => DnsErr (ResponseError "record exists")) (fun _ _ _ _ => true)
    (fun _ _ => true) (fun _ => true) (fun _ => 0).

Definition st_old_net : State := mkState "old" [srv_web; srv_db].
Definition st_net : State := mkState "net" [srv_web; srv_gone].
Definition world_of (st : State) : World := mkWorld st st EmptyString [].
Definition st_two : State := mkState "net" [srv_web; srv_db].


(** The servers API seen through the wrapper of [HCloud.api_ex] on
    network 7. *)
Definition env_hcloud_ex : Env :=
  mkEnv (Some [1; 2]%Z) (HCloud.get_server_view HCloud.api_ex 7) (fun a => Some a)
    (fun _ _ _ _ => DnsOk) (fun _ _ _ _ => true) (fun _ _ => true)
    (fun _ => true) (fun _ => 0).

(** * Properties *)

(** ** The monad *)

Lemma bind_inv {A B} (m : M A) (f : A -> M B) w r w'' :
  bind m f w = (r, w'') ->
  (exists a w', m w = (Ok a, w') /\ f a w' = (r, w'')) \/
  (exists e, m w = (Err e, w'') /\ r = Err e).
Proof.
  unfold bind. destruct (m w) as [[a|e] w'] eqn:Hm; intros H.
  - left. exists a, w'. auto.
  - right. exists e. inversion H; subst. auto.
Qed.

Lemma bind_ok_inv {A B} (m : M A) (f : A -> M B) w b w'' :
  bind m f w = (Ok b, w'') ->
  exists a w', m w = (Ok a, w') /\ f a w' = (Ok b, w'').
Proof.
  intros H. destruct (bind_inv m f w _ _ H) as [H1|[e [_ He]]]; [exact H1|discriminate].
Qed.

(** ** Lists of servers and of ids *)

Lemma zmem_In x l : zmem x l = true <-> In x l.
Proof.
  unfold zmem. rewrite existsb_exists. split.
  - intros [y [Hy Heq]]. apply Z.eqb_eq in Heq. subst. exact Hy.
  - intros H. exists x. split; [exact H|apply Z.eqb_refl].
Qed.

Lemma zmem_false x l : zmem x l = false <-> ~ In x l.
Proof.
  rewrite <- zmem_In. destruct (zmem x l); split; congruence.
Qed.

Lemma In_ids_filter (p : Server -> bool) l x :
  In x (server_ids_of (filter p l)) <->
  exists s, In s l /\ p s = true /\ id s = x.
Proof.
  unfold server_ids_of. rewrite in_map_iff. split.
  - intros [s [Hid Hin]]. apply filter_In in Hin. exists s. tauto.
  - intros [s [Hin [Hp Hid]]]. exists s. rewrite filter_In. tauto.
Qed.

Lemma In_ids_retain l x y :
  In y (server_ids_of (retain_not_id x l)) <-> In y (server_ids_of l) /\ y <> x.
Proof.
  unfold retain_not_id. rewrite In_ids_filter. unfold server_ids_of.
  rewrite in_map_iff. split.
  - intros [s [Hin [Hp Hid]]]. subst. apply negb_true_iff, Z.eqb_neq in Hp.
    split; [exists s; auto|exact Hp].
  - intros [[s [Hid Hin]] Hne]. subst. exists s. repeat split; auto.
    apply negb_true_iff, Z.eqb_neq. exact Hne.
Qed.

Lemma NoDup_ids_filter (p : Server -> bool) l :
  NoDup (server_ids_of l) -> NoDup (server_ids_of (filter p l)).
Proof.
  unfold server_ids_of. induction l as [|s l IH]; simpl; intros H; [constructor|].
  inversion H as [|? ? Hnin Hnd]; subst.
  destruct (p s); simpl; auto.
  constructor; auto. intros Hin. apply Hnin.
  apply in_map_iff in Hin as [s' [Hid Hin]]. apply filter_In in Hin as [Hin _].
  rewrite <- Hid. apply in_map. exact Hin.
Qed.

Lemma filter_filter_and {A} (f g : A -> bool) l :
  filter f (filter g l) = filter (fun a => g a && f a) l.
Proof.
  induction l as [|a l IH]; simpl; auto.
  destruct (g a); simpl; [destruct (f a)|]; rewrite ?IH; reflexivity.
Qed.

Lemma retain_not_id_fresh x l :
  ~ In x (server_ids_of l) -> retain_not_id x l = l.
Proof.
  unfold retain_not_id, server_ids_of. induction l as [|s l IH]; simpl; intros H; auto.
  assert (Hne : id s <> x) by tauto.
  apply Z.eqb_neq in Hne. rewrite Hne. simpl. f_equal. apply IH. tauto.
Qed.

Lemma find_id_some x l :
  In x (server_ids_of l) ->
  exists s, find (fun s => Z.eqb (id s) x) l = Some s /\ id s = x.
Proof.
  intros H. unfold server_ids_of in H.
  destruct (find (fun s => Z.eqb (id s) x) l) as [s|] eqn:Hf.
  - exists s. split; auto. apply find_some in Hf as [_ Hf]. apply Z.eqb_eq. exact Hf.
  - exfalso. apply in_map_iff in H as [s [Hid Hin]].
    pose proof (find_none _ _ Hf s Hin) as Hs. simpl in Hs.
    rewrite Hid, Z.eqb_refl in Hs. discriminate.
Qed.

(** ** [HashSet] iteration is a permutation of the elements *)

Lemma nth_remove_nth_perm (l : list Z) i :
  i < length l -> Permutation (nth i l 0%Z :: remove_nth i l) l.
Proof.
  unfold remove_nth. revert i. induction l as [|a l IH]; simpl; intros i Hi; [lia|].
  destruct i as [|j]; simpl.
  - apply Permutation_refl.
  - eapply perm_trans; [apply perm_swap|]. apply perm_skip. apply IH. lia.
Qed.

Lemma length_remove_nth (l : list Z) i :
  i < length l -> length (remove_nth i l) = pred (length l).
Proof.
  unfold remove_nth. revert i. induction l as [|a l IH]; simpl; intros i Hi; [lia|].
  destruct i as [|j]; simpl.
  - reflexivity.
  - rewrite IH by lia. lia.
Qed.

Lemma hs_iter_fuel_perm pick fuel l :
  length l <= fuel -> Permutation (hs_iter_fuel pick fuel l) l.
Proof.
  revert l. induction fuel as [|f IH]; intros l Hl; simpl.
  - destruct l; simpl in Hl; [constructor|lia].
  - destruct l as [|a l']; [constructor|].
    set (l0 := a :: l') in *.
    assert (Hi : pick l0 mod length l0 < length l0)
      by (apply Nat.mod_upper_bound; subst l0; simpl; lia).
    eapply perm_trans; [|apply (nth_remove_nth_perm l0 _ Hi)].
    apply perm_skip. apply IH. rewrite length_remove_nth by exact Hi. lia.
Qed.

Lemma hs_collect_NoDup pick xs : NoDup (hs_collect pick xs).
Proof.
  unfold hs_collect.
  eapply Permutation_NoDup; [apply Permutation_sym, hs_iter_fuel_perm; lia|].
  apply NoDup_nodup.
Qed.

Lemma hs_collect_In pick xs x : In x (hs_collect pick xs) <-> In x xs.
Proof.
  unfold hs_collect.
  assert (Hp : Permutation (hs_iter_fuel pick (length (nodup Z.eq_dec xs)) (nodup Z.eq_dec xs))
                 (nodup Z.eq_dec xs)) by (apply hs_iter_fuel_perm; lia).
  split; intros H.
  - apply (nodup_In Z.eq_dec). exact (Permutation_in _ Hp H).
  - apply (Permutation_in _ (Permutation_sym Hp)). apply (nodup_In Z.eq_dec). exact H.
Qed.

Lemma hs_difference_In a b x :
  In x (hs_difference a b) <-> In x a /\ ~ In x b.
Proof.
  unfold hs_difference. rewrite filter_In, negb_true_iff, zmem_false. tauto.
Qed.

Lemma hs_difference_NoDup a b : NoDup a -> NoDup (hs_difference a b).
Proof. apply NoDup_filter. Qed.

(** ** [compute_diff] *)

Lemma compute_diff_eq env w :
  compute_diff env w =
  let known := hs_collect (env_pick env) (server_ids_of (servers_synced (w_state w))) in
  match env_server_ids env with
  | Some ids =>
      let cur := hs_collect (env_pick env) ids in
      (Ok (hs_difference cur known, hs_difference known cur),
       log_event (EvListNetworks (Some ids)) w)
  | None => (Err ErrHCloud, log_event (EvListNetworks None) w)
  end.
Proof.
  unfold compute_diff, server_ids, bind, get_state, emit, ret, fail.
  destruct (env_server_ids env); reflexivity.
Qed.

(** The ids scheduled for addition are exactly the member ids
    reported by the Hetzner API minus the ids in [servers_synced], and the
    ids scheduled for removal are exactly the ids in [servers_synced] minus
    the member ids; both are duplicate-free (they come from [HashSet]s). *)
Lemma compute_diff_sets env w ms adds rems w' :
  env_server_ids env = Some ms ->
  compute_diff env w = (Ok (adds, rems), w') ->
  let known := server_ids_of (servers_synced (w_state w)) in
  NoDup adds /\ NoDup rems /\
  (forall x, In x adds <-> In x ms /\ ~ In x known) /\
  (forall x, In x rems <-> In x known /\ ~ In x ms).
Proof.
  intros Hms Hd known. rewrite compute_diff_eq, Hms in Hd. simpl in Hd.
  inversion Hd; subst adds rems w'.
  split; [apply hs_difference_NoDup, hs_collect_NoDup|].
  split; [apply hs_difference_NoDup, hs_collect_NoDup|].
  split; intros x; rewrite hs_difference_In, !hs_collect_In; reflexivity.
Qed.

(** ** Single steps *)

Section Steps.
Variable env : Env.
Variable zone : string.

Lemma save_eq w :
  save env w =
  if env_write env (w_log w) then
    (Ok tt, mkWorld (w_state w) (w_state w)
              (write_at_start (serialize_state (w_state w)) (w_file w))
              (w_log w ++ [EvSave (w_state w) true]))
  else (Err ErrSave, mkWorld (w_state w) (w_saved w) (w_file w)
                       (w_log w ++ [EvSave (w_state w) false])).
Proof. unfold save. destruct (env_write env (w_log w)); reflexivity. Qed.

Lemma remove_server_eq s w :
  remove_server env zone s w =
  let ok := env_delete env (w_log w) (server_fqdn zone s) in
  (if ok then Ok tt else Err ErrDns, log_event (EvDelete (server_fqdn zone s) ok) w).
Proof.
  unfold remove_server, dns_delete, bind, ask_log, emit, ret, fail. simpl.
  destruct (env_delete env (w_log w) (server_fqdn zone s)); reflexivity.
Qed.

Lemma add_server_keeps_state s w r w' :
  add_server env zone s w = (r, w') ->
  w_state w' = w_state w /\ w_saved w' = w_saved w.
Proof.
  unfold add_server, dns_create, dns_update, bind, ask_log, emit, ret, fail.
  destruct (env_parse_ip env (ip_address s)) as [addr|].
  2: { intros H; inversion H; auto. }
  simpl. destruct (env_create env (w_log w) (server_fqdn zone s) addr 600) as [|[t|]].
  - intros H; inversion H; auto.
  - simpl. destruct (env_update _ _ _ _ _); intros H; inversion H; auto.
  - intros H; inversion H; auto.
Qed.

Lemma hydrate_keeps_state ids w r w' :
  hydrate_server_list env ids w = (r, w') ->
  w_state w' = w_state w /\ w_saved w' = w_saved w /\
  (forall hs, r = Ok hs -> server_ids_of hs = ids).
Proof.
  revert w r. induction ids as [|x rest IH]; intros w r H; simpl in H.
  - inversion H; subst. repeat split; auto. intros hs Hh; inversion Hh; reflexivity.
  - destruct (env_get_server env x) as [[ip name]|].
    + unfold bind at 1, emit in H.
      unfold bind in H. destruct (hydrate_server_list env rest (log_event (EvGetServer x true) w))
        as [[hs|e] w1] eqn:Hr.
      * unfold ret in H. inversion H; subst.
        destruct (IH _ _ Hr) as [H1 [H2 H3]]. repeat split; auto.
        intros hs' Hh. inversion Hh; subst. simpl. f_equal. apply H3. reflexivity.
      * inversion H; subst. destruct (IH _ _ Hr) as [H1 [H2 H3]]. repeat split; auto.
        intros hs' Hh; discriminate.
    + unfold bind, emit, fail in H. inversion H; subst. repeat split; auto.
      intros hs' Hh; discriminate.
Qed.

Lemma add_loop_appends l w r w' :
  add_loop env zone l w = (r, w') ->
  exists k, servers_synced (w_state w') = servers_synced (w_state w) ++ firstn k l /\
    private_network_name (w_state w') = private_network_name (w_state w) /\
    (r = Ok tt -> k = length l).
Proof.
  revert w r. induction l as [|s rest IH]; intros w r H; simpl in H.
  - inversion H; subst. exists 0. simpl. rewrite app_nil_r. auto.
  - unfold bind at 1 in H.
    destruct (add_server env zone s w) as [[u|e] w1] eqn:Ha;
      destruct (add_server_keeps_state _ _ _ _ Ha) as [Hs1 _].
    + unfold bind, modify_state in H. rewrite save_eq in H. simpl in H.
      destruct (env_write env (w_log w1)).
      * destruct (IH _ _ H) as [k [Hk1 [Hk2 Hk3]]]. simpl in Hk1, Hk2.
        exists (S k). simpl. rewrite Hk1, Hs1, <- app_assoc.
        split; [reflexivity|split].
        -- rewrite Hk2, Hs1. reflexivity.
        -- intros Hr. rewrite (Hk3 Hr). reflexivity.
      * inversion H; subst. exists 1. simpl. rewrite Hs1.
        split; [reflexivity|split; [reflexivity|intros Hr; discriminate]].
    + inversion H; subst. exists 0. simpl. rewrite app_nil_r, Hs1.
      split; [reflexivity|split; [reflexivity|intros Hr; discriminate]].
Qed.

Lemma remove_loop_ok ids w w' :
  remove_loop env zone ids w = (Ok tt, w') ->
  servers_synced (w_state w') =
    filter (fun s => negb (zmem (id s) ids)) (servers_synced (w_state w)) /\
  private_network_name (w_state w') = private_network_name (w_state w).
Proof.
  revert w. induction ids as [|x rest IH]; intros w H; simpl in H.
  - inversion H; subst. simpl. rewrite filter_true. auto.
  - unfold bind at 1, get_state in H.
    destruct (find (fun s => Z.eqb (id s) x) (servers_synced (w_state w))) as [s|] eqn:Hf;
      [|discriminate].
    apply find_some in Hf as [_ Hid]. apply Z.eqb_eq in Hid.
    unfold bind at 1 in H. rewrite remove_server_eq in H. simpl in H.
    destruct (env_delete env (w_log w) (server_fqdn zone s)); [|discriminate].
    unfold bind, modify_state in H. rewrite save_eq in H. simpl in H.
    destruct (env_write _ _); [|discriminate].
    destruct (IH _ H) as [H1 H2]. simpl in H1, H2. split; [|exact H2].
    rewrite H1. unfold retain_not_id. rewrite Hid, filter_filter_and.
    apply filter_ext. intros s'. unfold zmem. simpl.
    destruct (Z.eqb (id s') x); reflexivity.
Qed.
End Steps.

Lemma In_ids_remove_filter R L x :
  In x (server_ids_of (filter (fun s => negb (zmem (id s) R)) L)) <->
  In x (server_ids_of L) /\ ~ In x R.
Proof.
  rewrite In_ids_filter. unfold server_ids_of. rewrite in_map_iff. split.
  - intros [s [Hin [Hp Hid]]]. subst. apply negb_true_iff, zmem_false in Hp.
    split; [exists s; auto|exact Hp].
  - intros [[s [Hid Hin]] Hn]. subst. exists s. repeat split; auto.
    apply negb_true_iff, zmem_false. exact Hn.
Qed.

Lemma drain_servers_ok env zone l w w' :
  drain_servers env zone l w = (Ok tt, w') ->
  servers_synced (w_state w') =
    filter (fun s => negb (zmem (id s) (server_ids_of l))) (servers_synced (w_state w)) /\
  private_network_name (w_state w') = private_network_name (w_state w).
Proof.
  revert w. induction l as [|x rest IH]; intros w H; simpl in H.
  - inversion H; subst. simpl. rewrite filter_true. auto.
  - unfold bind at 1 in H. rewrite remove_server_eq in H. simpl in H.
    destruct (env_delete env (w_log w) (server_fqdn zone x)); [|discriminate].
    unfold bind, modify_state in H. rewrite save_eq in H. simpl in H.
    destruct (env_write _ _); [|discriminate].
    destruct (IH _ H) as [H1 H2]. simpl in H1, H2. split; [|exact H2].
    rewrite H1. unfold retain_not_id. rewrite filter_filter_and.
    apply filter_ext. intros s'. unfold zmem. simpl.
    destruct (Z.eqb (id s') (id x)); reflexivity.
Qed.

Lemma filter_all_own_ids l :
  filter (fun s => negb (zmem (id s) (server_ids_of l))) l = [].
Proof.
  assert (G : forall L, (forall s, In s L -> In (id s) (server_ids_of l)) ->
            filter (fun s => negb (zmem (id s) (server_ids_of l))) L = []).
  { induction L as [|s L IH]; intros HL; [reflexivity|]. simpl.
    assert (Hs : zmem (id s) (server_ids_of l) = true)
      by (apply zmem_In, HL; left; reflexivity).
    rewrite Hs. simpl. apply IH. intros s' Hs'. apply HL. right. exact Hs'. }
  apply G. intros s Hs. apply in_map. exact Hs.
Qed.

Lemma network_change_ok env zone net allow w w' :
  network_change env zone net allow w = (Ok tt, w') ->
  w_state w' = if String.eqb (private_network_name (w_state w)) net
               then w_state w else mkState net [].
Proof.
  unfold network_change, bind at 1, get_state.
  destruct (String.eqb (private_network_name (w_state w)) net) eqn:He; simpl.
  - unfold ret. intros H; inversion H; reflexivity.
  - destruct (servers_synced (w_state w)) as [|s0 l0] eqn:Hl; simpl.
    + unfold bind, modify_state. rewrite save_eq. simpl.
      destruct (env_write _ _); intros H; inversion H; subst; simpl.
      unfold set_private_network_name. rewrite Hl. reflexivity.
    + destruct allow; simpl; [|discriminate]. intros H.
      apply bind_ok_inv in H as [u [w1 [Hd H]]]. destruct u.
      destruct (drain_servers_ok env zone (s0 :: l0) _ _ Hd) as [H1 _].
      rewrite Hl, filter_all_own_ids in H1.
      unfold bind, modify_state in H. rewrite save_eq in H. simpl in H.
      destruct (env_write _ _); inversion H; subst; simpl.
      unfold set_private_network_name. rewrite H1. reflexivity.
Qed.

Lemma add_loop_guard_eq env zone (hs : list Server) :
  (if negb (is_empty hs) then add_loop env zone hs else ret tt) = add_loop env zone hs.
Proof. destruct hs; reflexivity. Qed.

Lemma remove_stage_eq env zone rems :
  remove_stage env zone rems = remove_loop env zone rems.
Proof. destruct rems; reflexivity. Qed.

(** A successful [add_stage] appends the servers of [current − known] and
    returns [known − current]. *)
Lemma add_stage_ok env zone w ms rems w' :
  env_server_ids env = Some ms ->
  add_stage env zone w = (Ok rems, w') ->
  let known := server_ids_of (servers_synced (w_state w)) in
  exists hs,
    servers_synced (w_state w') = servers_synced (w_state w) ++ hs /\
    private_network_name (w_state w') = private_network_name (w_state w) /\
    NoDup (server_ids_of hs) /\
    (forall x, In x (server_ids_of hs) <-> In x ms /\ ~ In x known) /\
    NoDup rems /\
    (forall x, In x rems <-> In x known /\ ~ In x ms).
Proof.
  intros Hms H known. unfold add_stage in H.
  apply bind_ok_inv in H as [[adds rems0] [w1 [Hd H]]].
  destruct (compute_diff_sets env w ms adds rems0 w1 Hms Hd) as [Ha [Hr [Ha' Hr']]].
  rewrite compute_diff_eq, Hms in Hd. simpl in Hd. inversion Hd; subst w1. clear Hd.
  apply bind_ok_inv in H as [hs [w2 [Hh H]]].
  destruct (hydrate_keeps_state env _ _ _ _ Hh) as [Hs2 [_ Hid]].
  specialize (Hid hs eq_refl).
  apply bind_ok_inv in H as [u [w3 [Hl H]]]. unfold ret in H. inversion H; subst. clear H.
  rewrite add_loop_guard_eq in Hl.
  destruct (add_loop_appends env zone _ _ _ _ Hl) as [k [Hk1 [Hk2 Hk3]]].
  destruct u. rewrite (Hk3 eq_refl), firstn_all in Hk1.
  rewrite Hs2 in Hk1, Hk2. simpl in Hk1, Hk2.
  exists hs. rewrite Hid. repeat split; auto.
  - apply Ha'. exact H.
  - apply Ha'. exact H.
  - intros Hx. apply Ha'. exact Hx.
  - apply Hr'. exact H.
  - apply Hr'. exact H.
  - intros Hx. apply Hr'. exact Hx.
Qed.

Lemma main_run_done_inv env zone net allow st0 file0 w' :
  main_run env zone net allow st0 file0 = (Done, w') ->
  exists w1, main_body env zone net allow (mkWorld st0 st0 file0 []) = (Ok tt, w1) /\
    w_state w' = w_state w1 /\ w_saved w' = w_state w1.
Proof.
  unfold main_run. destruct (main_body env zone net allow (mkWorld st0 st0 file0 []))
    as [[u|e] w1] eqn:Hb; rewrite save_eq; destruct (env_write env (w_log w1));
    intros H; inversion H; subst.
  destruct u. exists w1. auto.
Qed.

(** Claim C1: when a run completes successfully, the ids of the final
    [servers_synced] are exactly the member ids reported for the network,
    without duplicates (given the data-model invariant that the stored
    [servers_synced] has unique ids). *)
Theorem main_run_synced_matches_members env zone net allow st0 file0 ms w' :
  NoDup (server_ids_of (servers_synced st0)) ->
  env_server_ids env = Some ms ->
  main_run env zone net allow st0 file0 = (Done, w') ->
  NoDup (server_ids_of (servers_synced (w_state w'))) /\
  (forall x, In x (server_ids_of (servers_synced (w_state w'))) <-> In x ms).
Proof.
  intros Hnd Hms Hrun.
  apply main_run_done_inv in Hrun as [w1 [Hb [Hs1 _]]]. rewrite Hs1. clear Hs1.
  unfold main_body in Hb.
  apply bind_ok_inv in Hb as [u [wa [Hn Hb]]]. destruct u.
  apply network_change_ok in Hn. simpl in Hn.
  assert (HndA : NoDup (server_ids_of (servers_synced (w_state wa)))).
  { rewrite Hn. destruct (String.eqb _ net); [exact Hnd|constructor]. }
  clear Hn.
  apply bind_ok_inv in Hb as [rems [wb [Hadd Hrem]]].
  destruct (add_stage_ok env zone wa ms rems wb Hms Hadd)
    as [hs [Hsb [_ [Hndh [Hh [Hndr Hr]]]]]].
  rewrite remove_stage_eq in Hrem.
  destruct (remove_loop_ok env zone rems wb w1 Hrem) as [Hs1 _].
  rewrite Hs1, Hsb. clear Hs1 Hsb Hadd Hrem.
  set (known := server_ids_of (servers_synced (w_state wa))) in *.
  split.
  - apply NoDup_ids_filter. unfold server_ids_of at 1. rewrite map_app.
    apply NoDup_app; [exact HndA|exact Hndh|].
    intros a Ha Hb. apply Hh in Hb as [_ Hb]. exact (Hb Ha).
  - intros x. rewrite In_ids_remove_filter. unfold server_ids_of at 1.
    rewrite map_app, in_app_iff. fold (server_ids_of hs). rewrite Hh, Hr.
    fold known.
    destruct (in_dec Z.eq_dec x known); destruct (in_dec Z.eq_dec x ms); tauto.
Qed.

(** ** The [unwrap] of the removal loop *)

Definition no_unwrap {A} (m : M A) : Prop :=
  forall w, is_unwrap_panic (fst (m w)) = false.

Lemma no_unwrap_bind {A B} (m : M A) (f : A -> M B) :
  no_unwrap m -> (forall a, no_unwrap (f a)) -> no_unwrap (bind m f).
Proof.
  intros Hm Hf w. unfold bind. specialize (Hm w).
  destruct (m w) as [[a|e] w']; simpl in *; auto. apply Hf.
Qed.

Lemma no_unwrap_ret {A} (a : A) : no_unwrap (ret a).
Proof. intros w. reflexivity. Qed.

Lemma no_unwrap_save env : no_unwrap (save env).
Proof. intros w. rewrite save_eq. destruct (env_write _ _); reflexivity. Qed.

Lemma no_unwrap_modify f : no_unwrap (modify_state f).
Proof. intros w. reflexivity. Qed.

Lemma no_unwrap_remove_server env zone s : no_unwrap (remove_server env zone s).
Proof.
  intros w. rewrite remove_server_eq. simpl.
  destruct (env_delete _ _ _); reflexivity.
Qed.

Lemma no_unwrap_add_server env zone s : no_unwrap (add_server env zone s).
Proof.
  intros w. unfold add_server, dns_create, dns_update, bind, ask_log, emit, ret, fail.
  destruct (env_parse_ip env (ip_address s)) as [addr|]; [|reflexivity].
  simpl. destruct (env_create _ _ _ _ _) as [|[t|]]; simpl; auto.
  destruct (env_update _ _ _ _ _); reflexivity.
Qed.

Create HintDb nounwrap.
#[local] Hint Resolve no_unwrap_bind no_unwrap_ret no_unwrap_save no_unwrap_modify
  no_unwrap_remove_server no_unwrap_add_server : nounwrap.

Lemma no_unwrap_drain env zone l : no_unwrap (drain_servers env zone l).
Proof. induction l; simpl; eauto 10 with nounwrap. Qed.

Lemma no_unwrap_add_loop env zone l : no_unwrap (add_loop env zone l).
Proof. induction l; simpl; eauto 10 with nounwrap. Qed.

Lemma no_unwrap_hydrate env ids : no_unwrap (hydrate_server_list env ids).
Proof.
  induction ids as [|x rest IH]; simpl; [apply no_unwrap_ret|].
  destruct (env_get_server env x) as [[ip name]|].
  - apply no_unwrap_bind; [intros w; reflexivity|]. intros _.
    apply no_unwrap_bind; [exact IH|]. intros hs. apply no_unwrap_ret.
  - apply no_unwrap_bind; intros; intros w; reflexivity.
Qed.

Lemma no_unwrap_network_change env zone net allow :
  no_unwrap (network_change env zone net allow).
Proof.
  unfold network_change. apply no_unwrap_bind; [intros w; reflexivity|]. intros st.
  destruct (negb _); [|apply no_unwrap_ret].
  destruct (negb (is_empty _)); [|eauto with nounwrap].
  destruct (negb allow); [intros w; reflexivity|].
  apply no_unwrap_bind; [apply no_unwrap_drain|]. eauto with nounwrap.
Qed.

Lemma no_unwrap_add_stage env zone : no_unwrap (add_stage env zone).
Proof.
  unfold add_stage. apply no_unwrap_bind.
  - intros w. rewrite compute_diff_eq. simpl. destruct (env_server_ids env); reflexivity.
  - intros [adds rems]. apply no_unwrap_bind; [apply no_unwrap_hydrate|]. intros hs.
    rewrite add_loop_guard_eq. apply no_unwrap_bind; [apply no_unwrap_add_loop|].
    intros _. apply no_unwrap_ret.
Qed.

Lemma remove_loop_no_unwrap env zone ids w :
  NoDup ids ->
  (forall x, In x ids -> In x (server_ids_of (servers_synced (w_state w)))) ->
  is_unwrap_panic (fst (remove_loop env zone ids w)) = false.
Proof.
  revert w. induction ids as [|x rest IH]; intros w Hnd Hin; simpl; [reflexivity|].
  inversion Hnd as [|? ? Hx Hnd']; subst.
  unfold bind at 1, get_state.
  destruct (find_id_some x (servers_synced (w_state w)) (Hin x (or_introl eq_refl)))
    as [s [Hf Hid]].
  rewrite Hf. unfold bind at 1. rewrite remove_server_eq. simpl.
  destruct (env_delete _ _ _); [|reflexivity].
  unfold bind at 1, modify_state. unfold bind at 1. rewrite save_eq. simpl.
  destruct (env_write _ _); [|reflexivity].
  apply IH; [exact Hnd'|]. intros y Hy. simpl. rewrite Hid, In_ids_retain.
  split; [apply Hin; right; exact Hy|]. intros ->. exact (Hx Hy).
Qed.

(** Claim C9: the [unwrap] on [find] in the removal loop never panics:
    every id of [servers_to_remove] is still in [servers_synced] when the
    loop reaches it. *)
Theorem main_body_find_never_fails env zone net allow w :
  is_unwrap_panic (fst (main_body env zone net allow w)) = false.
Proof.
  unfold main_body, bind at 1.
  pose proof (no_unwrap_network_change env zone net allow w) as H0.
  destruct (network_change env zone net allow w) as [[u|e] wa]; [|exact H0].
  unfold bind. pose proof (no_unwrap_add_stage env zone wa) as H1.
  destruct (add_stage env zone wa) as [[rems|e] wb] eqn:Ha; [|exact H1].
  destruct (env_server_ids env) as [ms|] eqn:Hms.
  - destruct (add_stage_ok env zone wa ms rems wb Hms Ha)
      as [hs [Hsb [_ [_ [_ [Hndr Hr]]]]]].
    rewrite remove_stage_eq. apply remove_loop_no_unwrap; [exact Hndr|].
    intros x Hx. rewrite Hsb. unfold server_ids_of. rewrite map_app, in_app_iff.
    left. apply Hr in Hx as [Hx _]. exact Hx.
  - exfalso. unfold add_stage, bind in Ha. rewrite compute_diff_eq, Hms in Ha.
    discriminate.
Qed.

(** ** Additions *)

Lemma firstn_ids_sub (hs : list Server) k :
  NoDup (server_ids_of hs) ->
  NoDup (server_ids_of (firstn k hs)) /\
  (forall x, In x (server_ids_of (firstn k hs)) -> In x (server_ids_of hs)).
Proof.
  intros H. rewrite <- (firstn_skipn k hs) in H.
  unfold server_ids_of in *. rewrite map_app in H. split.
  - exact (NoDup_app_remove_r _ _ H).
  - intros x Hx. rewrite <- (firstn_skipn k hs). rewrite map_app, in_app_iff. auto.
Qed.

(** Claim C10: duplicates in the member list are collapsed before the
    diff: whatever the member list (with repeated ids or not) and however
    the additions end, the servers appended to [servers_synced] by one run
    have pairwise distinct ids, each a member id not already synced. *)
Theorem add_stage_appends_each_member_once env zone w ms r w' :
  env_server_ids env = Some ms ->
  add_stage env zone w = (r, w') ->
  let known := server_ids_of (servers_synced (w_state w)) in
  exists added,
    servers_synced (w_state w') = servers_synced (w_state w) ++ added /\
    NoDup (server_ids_of added) /\
    (forall x, In x (server_ids_of added) -> In x ms /\ ~ In x known).
Proof.
  intros Hms H known. unfold add_stage in H.
  apply bind_inv in H as [[[adds rems] [w1 [Hd H]]]|[e [Hd _]]].
  2: { rewrite compute_diff_eq, Hms in Hd. discriminate. }
  destruct (compute_diff_sets env w ms adds rems w1 Hms Hd) as [Ha [_ [Ha' _]]].
  rewrite compute_diff_eq, Hms in Hd. simpl in Hd. inversion Hd; subst w1. clear Hd.
  fold known in Ha'.
  apply bind_inv in H as [[hs [w2 [Hh H]]]|[e [Hh _]]].
  2: { destruct (hydrate_keeps_state env _ _ _ _ Hh) as [Hs _].
       exists []. rewrite app_nil_r, Hs. split; [reflexivity|split; [constructor|]].
       intros x []. }
  destruct (hydrate_keeps_state env _ _ _ _ Hh) as [Hs2 [_ Hid]].
  specialize (Hid hs eq_refl).
  rewrite add_loop_guard_eq in H.
  assert (Hl : exists u, add_loop env zone hs w2 = (u, w')).
  { apply bind_inv in H as [[u [w3 [Hl H]]]|[e [Hl _]]].
    - unfold ret in H. inversion H; subst. eauto.
    - eauto. }
  destruct Hl as [u Hl].
  destruct (add_loop_appends env zone _ _ _ _ Hl) as [k [Hk1 _]].
  rewrite Hs2 in Hk1. simpl in Hk1.
  rewrite <- Hid in Ha, Ha'.
  destruct (firstn_ids_sub hs k Ha) as [Hnd Hsub].
  exists (firstn k hs). split; [exact Hk1|]. split; [exact Hnd|].
  intros x Hx. apply Ha', Hsub, Hx.
Qed.

(** ** Network name changes *)

(** Claim C8: when the stored network name differs from the requested one
    and [servers_synced] is empty, the only external call is one save of
    the state with the new name (no DNS call); the run goes on to the diff
    exactly when that save succeeds. *)
Theorem network_change_empty_adopts env zone net allow w r w' :
  private_network_name (w_state w) <> net ->
  servers_synced (w_state w) = [] ->
  network_change env zone net allow w = (r, w') ->
  w_log w' = w_log w ++ [EvSave (mkState net []) (env_write env (w_log w))] /\
  w_state w' = mkState net [] /\
  (r = Ok tt <-> env_write env (w_log w) = true) /\
  (r = Ok tt -> w_saved w' = mkState net []).
Proof.
  intros Hne Hl H. unfold network_change, bind at 1, get_state in H.
  apply String.eqb_neq in Hne. rewrite Hne, Hl in H. simpl in H.
  unfold bind, modify_state in H. rewrite save_eq in H. simpl in H.
  unfold set_private_network_name in H. rewrite Hl in H.
  destruct (env_write env (w_log w)); inversion H; subst; simpl.
  - repeat split; auto.
  - repeat split; try discriminate; auto.
Qed.

Lemma write_at_start_same s : write_at_start s s = s.
Proof. induction s as [|c s IH]; simpl; [reflexivity|]. rewrite IH. reflexivity. Qed.

Lemma main_body_denied env zone net w :
  private_network_name (w_state w) <> net ->
  servers_synced (w_state w) <> [] ->
  main_body env zone net false w = (Err ErrNetworkChangeDenied, w).
Proof.
  intros Hne Hl. unfold main_body, network_change, bind, get_state.
  apply String.eqb_neq in Hne. rewrite Hne.
  destruct (servers_synced (w_state w)); [congruence|]. reflexivity.
Qed.

(** Claim C3: when the stored network name differs, [servers_synced] is
    non-empty and [--allow-private-network-change] is not given, the run
    fails (with the denial error, or with a panic if the final save of
    [Drop] fails) and makes no Hetzner or DNS call: the only external call is
    the save of [Drop], which writes the unchanged state, so a state file
    holding that state keeps its content. *)
Theorem main_run_change_denied env zone net st0 file0 o w' :
  private_network_name st0 <> net ->
  servers_synced st0 <> [] ->
  main_run env zone net false st0 file0 = (o, w') ->
  (o = Failed ErrNetworkChangeDenied \/ o = Panicked) /\
  w_log w' = [EvSave st0 (env_write env [])] /\
  w_state w' = st0 /\ w_saved w' = st0 /\
  (file0 = serialize_state st0 -> w_file w' = file0).
Proof.
  intros Hne Hl H. unfold main_run in H.
  rewrite (main_body_denied env zone net (mkWorld st0 st0 file0 []) Hne Hl) in H.
  rewrite save_eq in H.
  change (w_log (mkWorld st0 st0 file0 [])) with (@nil event) in H.
  change (w_file (mkWorld st0 st0 file0 [])) with file0 in H.
  pose proof (f_equal fst H) as Ho. pose proof (f_equal snd H) as Hw. clear H.
  destruct (env_write env []); cbn [fst snd] in Ho, Hw; subst o w'.
  - split; [left; reflexivity|]. do 3 (split; [reflexivity|]).
    intros Hf. change (write_at_start (serialize_state st0) file0 = file0).
    rewrite Hf. exact (write_at_start_same _).
  - split; [right; reflexivity|]. do 3 (split; [reflexivity|]). auto.
Qed.

(** ** Create-or-update *)

(** Claim C4: [add_server] first calls [create(fqdn, addr, 600)]; only on
    a [Response] error it calls [update] once, with the same name, address
    and TTL, and never [create] again; any other [create] error, or a failed
    [update], makes it fail. *)
Theorem add_server_create_then_update env zone s addr w r w' :
  env_parse_ip env (ip_address s) = Some addr ->
  add_server env zone s w = (r, w') ->
  let fqdn := server_fqdn zone s in
  w_state w' = w_state w /\
  exists cr rest,
    w_log w' = w_log w ++ EvCreate fqdn addr 600 cr :: rest /\
    match cr with
    | DnsOk => rest = [] /\ r = Ok tt
    | DnsErr (ResponseError _) =>
        exists ok, rest = [EvUpdate fqdn addr 600 ok] /\
                   r = (if ok then Ok tt else Err ErrDns)
    | DnsErr OtherError => rest = [] /\ r = Err ErrDns
    end.
Proof.
  intros Hp H fqdn. unfold add_server in H. rewrite Hp in H.
  unfold dns_create, dns_update, bind, ask_log, emit, ret, fail in H. simpl in H.
  fold fqdn in H.
  destruct (env_create env (w_log w) fqdn addr 600) as [|[t|]] eqn:Hc.
  - inversion H; subst. split; [reflexivity|].
    exists DnsOk, []. split; [reflexivity|auto].
  - simpl in H.
    destruct (env_update env (w_log w ++ [EvCreate fqdn addr 600 (DnsErr (ResponseError t))])
                fqdn addr 600);
      inversion H; subst; simpl; (split; [reflexivity|]);
      exists (DnsErr (ResponseError t)); eexists;
      (split; [rewrite <- app_assoc; reflexivity|]); eauto.
  - inversion H; subst. split; [reflexivity|].
    exists (DnsErr OtherError), []. split; [reflexivity|auto].
Qed.

(** ** Saving *)

Lemma string_drop_empty n : string_drop n EmptyString = EmptyString.
Proof. destruct n; reflexivity. Qed.

Lemma append_empty_r s : append s EmptyString = s.
Proof. induction s as [|c s IH]; simpl; [reflexivity|]. rewrite IH. reflexivity. Qed.

Lemma write_at_start_app d f :
  write_at_start d f = append d (string_drop (String.length d) f).
Proof.
  revert f. induction d as [|c d IH]; intros f; simpl.
  - reflexivity.
  - destruct f as [|c' f]; simpl.
    + f_equal. simpl. rewrite ?string_drop_empty, ?append_empty_r. reflexivity.
    + f_equal. apply IH.
Qed.

(** Claim C6 (divergence): [save] seeks to offset 0 and writes the JSON
    of the state without truncating the file, so when the new JSON is
    shorter than the file (here after the removal of [srv_web]) the old
    tail stays behind it and the file is not the serialisation of the
    state. *)
Theorem save_keeps_stale_tail :
  let st_old := mkState "net" [srv_web] in
  let st_new := mkState "net" [] in
  let w := mkWorld st_new st_old (serialize_state st_old) [] in
  fst (save env_all_ok w) = Ok tt /\
  w_file (snd (save env_all_ok w)) =
    append (serialize_state st_new)
      (string_drop (String.length (serialize_state st_new)) (serialize_state st_old)) /\
  w_file (snd (save env_all_ok w)) <> serialize_state st_new.
Proof.
  intros st_old st_new w. rewrite save_eq. simpl (env_write env_all_ok _).
  cbn [fst snd w_file w_state].
  split; [reflexivity|]. split; [apply write_at_start_app|].
  intros H. apply (f_equal String.length) in H. vm_compute in H. discriminate.
Qed.

(** ** Rename clean-up *)

Lemma drain_servers_trace env zone old l w r w' :
  NoDup (server_ids_of l) ->
  w_state w = mkState old l ->
  w_saved w = w_state w ->
  drain_servers env zone l w = (r, w') ->
  (r = Ok tt ->
     w_log w' = w_log w ++ drain_trace zone old l /\
     w_state w' = mkState old [] /\ w_saved w' = w_state w') /\
  (r = Err ErrDns ->
     exists N s, nth_error l N = Some s /\
       w_log w' = w_log w ++ firstn (2 * N) (drain_trace zone old l) ++
                    [EvDelete (server_fqdn zone s) false] /\
       w_state w' = mkState old (skipn N l) /\ w_saved w' = w_state w').
Proof.
  revert w r. induction l as [|s rest IH]; intros w r Hnd Hst Hsv H; simpl in H.
  - inversion H; subst. rewrite app_nil_r. split; [auto|]. intros; discriminate.
  - unfold server_ids_of in Hnd. simpl in Hnd.
    inversion Hnd as [|? ? Hs Hnd']; subst.
    unfold bind at 1 in H. rewrite remove_server_eq in H. cbv zeta in H.
    destruct (env_delete env (w_log w) (server_fqdn zone s)) eqn:Hdel.
    + unfold bind at 1, modify_state in H. unfold bind at 1 in H.
      rewrite save_eq in H. cbn [w_state w_saved w_log w_file log_event] in H.
      rewrite Hst in H. unfold set_servers_synced, retain_not_id in H. simpl in H.
      rewrite Z.eqb_refl in H. simpl in H.
      change (filter (fun s0 => negb (Z.eqb (id s0) (id s))) rest) with
        (retain_not_id (id s) rest) in H.
      rewrite (retain_not_id_fresh _ _ Hs) in H.
      destruct (env_write env (w_log w ++ [EvDelete (server_fqdn zone s) true])).
      * pose proof (fun Hst Hsv => IH _ _ Hnd' Hst Hsv H) as IH'.
        destruct (IH' eq_refl eq_refl) as [Hok Herr].
        cbn [w_log] in Hok, Herr. split.
        -- intros Hr. destruct (Hok Hr) as [H1 H2]. split; [|exact H2].
           rewrite H1, <- !app_assoc. reflexivity.
        -- intros Hr. destruct (Herr Hr) as [N [s' [Hn [H1 H2]]]].
           exists (S N), s'. split; [exact Hn|]. split; [|exact H2].
           rewrite H1, <- !app_assoc.
           replace (2 * S N) with (S (S (2 * N))) by lia. reflexivity.
      * inversion H; subst. split; intros; discriminate.
    + inversion H; subst. split; [intros; discriminate|]. intros _.
      exists 0, s. simpl. auto.
Qed.

(** Claim C2: on a network name change with a non-empty [servers_synced]
    (ids unique) and [--allow-private-network-change], each synced server
    gets exactly one delete, each followed by a save of the state without
    it; only then is the new name adopted and saved.  When the delete of
    the [N]-th server fails, the first [N] servers are gone from the state,
    which is also the last state saved. *)
Theorem network_change_drains_then_renames env zone net st0 file0 r w' :
  private_network_name st0 <> net ->
  servers_synced st0 <> [] ->
  NoDup (server_ids_of (servers_synced st0)) ->
  network_change env zone net true (mkWorld st0 st0 file0 []) = (r, w') ->
  let old := private_network_name st0 in
  let l := servers_synced st0 in
  (r = Ok tt ->
     w_log w' = drain_trace zone old l ++ [EvSave (mkState net []) true] /\
     w_state w' = mkState net [] /\ w_saved w' = mkState net []) /\
  (r = Err ErrDns ->
     exists N s, nth_error l N = Some s /\
       w_log w' = firstn (2 * N) (drain_trace zone old l) ++
                    [EvDelete (server_fqdn zone s) false] /\
       w_state w' = mkState old (skipn N l) /\ w_saved w' = w_state w').
Proof.
  intros Hne Hl Hnd H old l. unfold network_change, bind at 1, get_state in H.
  cbn [w_state] in H. apply String.eqb_neq in Hne. rewrite Hne in H.
  assert (He : is_empty (servers_synced st0) = false)
    by (destruct (servers_synced st0); [congruence|reflexivity]).
  rewrite He in H. simpl in H.
  assert (Hst : w_state (mkWorld st0 st0 file0 []) = mkState old l)
    by (destruct st0; reflexivity).
  unfold bind at 1 in H.
  destruct (drain_servers env zone (servers_synced st0) (mkWorld st0 st0 file0 []))
    as [r1 w1] eqn:Hd.
  destruct (drain_servers_trace env zone old l _ _ _ Hnd Hst eq_refl Hd) as [Hok Herr].
  cbn [w_log app] in Hok, Herr.
  destruct r1 as [u|e].
  - destruct u. destruct (Hok eq_refl) as [H1 [H2 H3]].
    unfold bind, modify_state in H. rewrite save_eq in H.
    cbn [w_state w_saved w_log w_file] in H. rewrite H2 in H.
    destruct (env_write env (w_log w1)); inversion H; subst; cbn [w_log w_state w_saved].
    + split; [|intros; discriminate]. intros _. rewrite H1. auto.
    + split; intros; discriminate.
  - inversion H; subst. split; [intros; discriminate|]. intros Hr. exact (Herr Hr).
Qed.

(** ** Failures abort the run, after saving every DNS write *)

Lemma ends_with_write_cons ev l :
  l <> [] -> ends_with_write (ev :: l) = ends_with_write l.
Proof. destruct l; [congruence|reflexivity]. Qed.

Lemma closed_log_app a b :
  closed_log a = true -> closed_log b = true -> closed_log (a ++ b) = true.
Proof.
  unfold closed_log. induction a as [|ev a IH]; simpl; intros Ha Hb; [exact Hb|].
  apply andb_prop in Ha as [Ha Hend]. apply andb_prop in Ha as [Hhd Ha].
  destruct a as [|ev' a'].
  - simpl in *. destruct (dns_write_ok ev) eqn:Hw; [simpl in Hend; discriminate Hend|].
    apply andb_prop in Hb as [Hb1 Hb2]. rewrite Hb1. simpl.
    destruct b; [reflexivity|exact Hb2].
  -
    assert (IH' : saved_after_writes ((ev' :: a') ++ b) &&
                  negb (ends_with_write ((ev' :: a') ++ b)) = true)
      by (apply IH; [rewrite Ha, Hend; reflexivity|exact Hb]).
    apply andb_prop in IH' as [IH1 IH2].
    simpl app in *. rewrite IH1.
    change (negb match ev' :: a' ++ b with
                 | [] => dns_write_ok ev
                 | _ :: _ => ends_with_write (ev' :: a' ++ b) end)
      with (negb (ends_with_write (ev' :: a' ++ b))).
    rewrite IH2, !andb_true_r. exact Hhd.
Qed.

Definition log_shape {A} (r : result A) (new : list event) : Prop :=
  match r with
  | Ok _ => forallb (fun ev => negb (aborts ev)) new = true
  | Err ErrDns =>
      exists pre ev, new = pre ++ [ev] /\ dns_failure ev = true /\
        forallb (fun ev => negb (aborts ev)) pre = true
  | Err _ => forallb (fun ev => negb (dns_failure ev)) new = true
  end.

Lemma nonabort_no_dns_failure l :
  forallb (fun ev => negb (aborts ev)) l = true ->
  forallb (fun ev => negb (dns_failure ev)) l = true.
Proof.
  induction l as [|ev l IH]; simpl; [reflexivity|].
  intros H. apply andb_prop in H as [H1 H2]. rewrite (IH H2), andb_true_r.
  destruct ev as [| |? ? ? [|[]]|? ? ? []|? []|]; simpl in H1 |- *; congruence.
Qed.

(** A computation that adds a closed log, of the right shape, and keeps
    the saved state equal to the in-memory one unless a save fails. *)
Definition Good {A} (m : M A) : Prop :=
  forall w r w', m w = (r, w') ->
  exists new, w_log w' = w_log w ++ new /\ closed_log new = true /\ log_shape r new /\
    (w_saved w = w_state w -> r <> Err ErrSave -> w_saved w' = w_state w').

Lemma Good_ret {A} (a : A) : Good (ret a).
Proof.
  intros w r w' H. inversion H; subst. exists []. rewrite app_nil_r.
  repeat split; auto.
Qed.

Lemma Good_fail {A} e : e <> ErrDns -> Good (@fail A e).
Proof.
  intros He w r w' H. inversion H; subst. exists []. rewrite app_nil_r.
  repeat split; auto. destruct e; simpl; auto. congruence.
Qed.

Lemma Good_get_state : Good get_state.
Proof.
  intros w r w' H. inversion H; subst. exists []. rewrite app_nil_r.
  repeat split; auto.
Qed.

Lemma Good_bind {A B} (m : M A) (f : A -> M B) :
  Good m -> (forall a, Good (f a)) -> Good (bind m f).
Proof.
  intros Hm Hf w r w'' H. unfold bind in H.
  destruct (m w) as [[a|e] w'] eqn:Hmw.
  - destruct (Hm _ _ _ Hmw) as [n1 [L1 [C1 [S1 V1]]]].
    destruct (Hf a _ _ _ H) as [n2 [L2 [C2 [S2 V2]]]].
    exists (n1 ++ n2). rewrite L2, L1, app_assoc. split; [reflexivity|].
    split; [apply closed_log_app; assumption|]. split.
    + simpl in S1. destruct r as [b|[]]; simpl in S2 |- *; auto;
        try (rewrite forallb_app, S1, S2; reflexivity);
        try (rewrite forallb_app, (nonabort_no_dns_failure _ S1), S2; reflexivity).
      destruct S2 as [pre [ev [Hn [Hd Hp]]]]. exists (n1 ++ pre), ev.
      rewrite Hn, app_assoc, forallb_app, S1, Hp. auto.
    + intros Hsv Hr. apply V2; [|exact Hr]. apply V1; [exact Hsv|discriminate].
  - inversion H; subst. destruct (Hm _ _ _ Hmw) as [n1 [L1 [C1 [S1 V1]]]].
    exists n1. split; [exact L1|]. split; [exact C1|]. split.
    + destruct e; exact S1.
    + intros Hsv Hr. apply V1; [exact Hsv|]. intros Habs. apply Hr.
      inversion Habs. reflexivity.
Qed.

(** [X ;;; modify f ;;; save ;;; k] where [X] is a DNS write that leaves
    the state alone. *)
Definition dns_step (X : M unit) : Prop :=
  forall w r w', X w = (r, w') ->
  w_state w' = w_state w /\ w_saved w' = w_saved w /\
  exists new, w_log w' = w_log w ++ new /\
    match r with
    | Ok _ => exists pre ev, new = pre ++ [ev] /\ dns_write_ok ev = true /\
               closed_log pre = true /\ forallb (fun ev => negb (aborts ev)) pre = true
    | Err e => closed_log new = true /\ log_shape (@Err unit e) new
    end.

Lemma Good_write_block env (X : M unit) f (k : M unit) :
  dns_step X -> Good k ->
  Good (X ;;; modify_state f ;;; save env ;;; k).
Proof.
  intros HX Hk w r w'' H. unfold bind at 1 in H.
  destruct (X w) as [[u|e] w1] eqn:Hx;
    destruct (HX _ _ _ Hx) as [Hs1 [Hv1 [n1 [L1 Hn1]]]].
  - destruct Hn1 as [pre [ev [Hn [Hw [Cp Fp]]]]]. subst n1.
    unfold bind at 1, modify_state in H. unfold bind at 1 in H. rewrite save_eq in H.
    cbn [w_state w_saved w_log w_file] in H.
    destruct (env_write env (w_log w1)).
    + destruct (Hk _ _ _ H) as [n2 [L2 [C2 [S2 V2]]]]. cbn [w_log w_state w_saved] in L2, V2.
      exists (pre ++ [ev; EvSave (f (w_state w1)) true] ++ n2).
      rewrite L2, L1, <- !app_assoc. split; [reflexivity|].
      assert (Cb : closed_log (pre ++ [ev; EvSave (f (w_state w1)) true]) = true).
      { apply closed_log_app; [exact Cp|]. unfold closed_log. simpl. rewrite Hw. reflexivity. }
      split; [rewrite app_assoc; apply closed_log_app; assumption|]. split.
      * assert (Fb : forallb (fun ev => negb (aborts ev)) (pre ++ [ev; EvSave (f (w_state w1)) true]) = true).
        { rewrite forallb_app, Fp. destruct ev as [| |? ? ? [|[]]|? ? ? []|? []|]; simpl in Hw |- *;
            congruence. }
        destruct r as [b|[]]; cbv beta iota delta [log_shape] in S2 |- *; auto;
          try (rewrite app_assoc, forallb_app, Fb, S2; reflexivity);
          try (rewrite app_assoc, forallb_app, (nonabort_no_dns_failure _ Fb), S2;
               reflexivity).
        destruct S2 as [pre2 [ev2 [Hn2 [Hd2 Hp2]]]].
        exists (pre ++ [ev; EvSave (f (w_state w1)) true] ++ pre2), ev2.
        rewrite Hn2, !app_assoc. split; [reflexivity|]. split; [exact Hd2|].
        rewrite forallb_app, Fb, Hp2. reflexivity.
      * intros _ Hr. apply V2; [reflexivity|exact Hr].
    + inversion H; subst. exists (pre ++ [ev; EvSave (f (w_state w1)) false]).
      cbn [w_log]. rewrite L1, <- !app_assoc. split; [reflexivity|].
      split; [|split; [|intros _ Hr; congruence]].
      2: { cbv beta iota delta [log_shape]. rewrite forallb_app,
             (nonabort_no_dns_failure _ Fp).
           destruct ev as [| |? ? ? [|[]]|? ? ? []|? []|]; simpl in Hw |- *; congruence. }
      apply closed_log_app; [exact Cp|]. unfold closed_log. simpl. rewrite Hw. reflexivity.
  - inversion H; subst. exists n1. destruct Hn1 as [C1 S1].
    split; [exact L1|]. split; [exact C1|]. split; [exact S1|].
    intros Hsv _. rewrite Hs1, Hv1. exact Hsv.
Qed.

Section GoodProgram.
Variable env : Env.
Variable zone : string.

Lemma dns_step_remove_server s : dns_step (remove_server env zone s).
Proof.
  intros w r w' H. rewrite remove_server_eq in H. cbv zeta in H.
  destruct (env_delete env (w_log w) (server_fqdn zone s)); inversion H; subst;
    (split; [reflexivity|]); (split; [reflexivity|]).
  - exists [EvDelete (server_fqdn zone s) true]. split; [reflexivity|].
    exists [], (EvDelete (server_fqdn zone s) true). auto.
  - exists [EvDelete (server_fqdn zone s) false]. split; [reflexivity|].
    split; [reflexivity|]. exists [], (EvDelete (server_fqdn zone s) false). auto.
Qed.

Lemma dns_step_add_server s : dns_step (add_server env zone s).
Proof.
  intros w r w' H. unfold add_server in H.
  destruct (env_parse_ip env (ip_address s)) as [addr|].
  2: { inversion H; subst. split; [reflexivity|]. split; [reflexivity|].
       exists []. rewrite app_nil_r. split; [reflexivity|]. split; reflexivity. }
  unfold dns_create, dns_update, bind, ask_log, emit, ret, fail in H. simpl in H.
  set (fq := server_fqdn zone s) in H.
  destruct (env_create env (w_log w) fq addr 600) as [|[t|]].
  - inversion H; subst. split; [reflexivity|]. split; [reflexivity|].
    eexists. split; [reflexivity|]. exists [], (EvCreate fq addr 600 DnsOk). auto.
  - simpl in H.
    destruct (env_update env (w_log w ++ [EvCreate fq addr 600 (DnsErr (ResponseError t))])
                fq addr 600);
      inversion H; subst; (split; [reflexivity|]); (split; [reflexivity|]);
      (eexists; split; [simpl; rewrite <- app_assoc; reflexivity|]).
    + exists [EvCreate fq addr 600 (DnsErr (ResponseError t))], (EvUpdate fq addr 600 true).
      auto.
    + split; [reflexivity|].
      exists [EvCreate fq addr 600 (DnsErr (ResponseError t))], (EvUpdate fq addr 600 false).
      auto.
  - inversion H; subst. split; [reflexivity|]. split; [reflexivity|].
    eexists. split; [reflexivity|]. split; [reflexivity|].
    exists [], (EvCreate fq addr 600 (DnsErr OtherError)). auto.
Qed.

Lemma Good_modify_save f : Good (modify_state f ;;; save env).
Proof.
  intros w r w' H. unfold bind, modify_state in H. rewrite save_eq in H.
  cbn [w_state w_saved w_log w_file] in H.
  destruct (env_write env (w_log w)); inversion H; subst;
    eexists; (split; [reflexivity|]); (split; [reflexivity|]).
  - split; [reflexivity|]. intros _ _. reflexivity.
  - split; [reflexivity|]. intros _ Hr. congruence.
Qed.

Lemma Good_emit_then_fail {A} ev e :
  dns_write_ok ev = false -> dns_failure ev = false -> e <> ErrDns ->
  Good (emit ev ;;; @fail A e).
Proof.
  intros Hw Hd He w r w' H. unfold bind, emit, fail in H. inversion H; subst.
  exists [ev]. split; [reflexivity|]. split.
  - unfold closed_log. simpl. rewrite Hw. reflexivity.
  - split; [destruct e; simpl; try rewrite Hd; auto; congruence|]. intros Hsv _. exact Hsv.
Qed.

Lemma Good_emit ev :
  dns_write_ok ev = false -> aborts ev = false -> Good (emit ev).
Proof.
  intros Hw Ha w r w' H. unfold emit in H. inversion H; subst.
  exists [ev]. split; [reflexivity|]. split.
  - unfold closed_log. simpl. rewrite Hw. reflexivity.
  - split; [simpl; rewrite Ha; reflexivity|]. intros Hsv _. exact Hsv.
Qed.

Lemma Good_drain l : Good (drain_servers env zone l).
Proof.
  induction l as [|s rest IH]; simpl; [apply Good_ret|].
  apply Good_write_block; [apply dns_step_remove_server|exact IH].
Qed.

Lemma Good_add_loop l : Good (add_loop env zone l).
Proof.
  induction l as [|s rest IH]; simpl; [apply Good_ret|].
  apply Good_write_block; [apply dns_step_add_server|exact IH].
Qed.

Lemma Good_remove_loop ids : Good (remove_loop env zone ids).
Proof.
  induction ids as [|x rest IH]; simpl; [apply Good_ret|].
  apply Good_bind; [apply Good_get_state|]. intros st.
  destruct (find _ _) as [s|]; [|apply Good_fail; discriminate].
  apply Good_write_block; [apply dns_step_remove_server|exact IH].
Qed.

Lemma Good_hydrate ids : Good (hydrate_server_list env ids).
Proof.
  induction ids as [|x rest IH]; simpl; [apply Good_ret|].
  destruct (env_get_server env x) as [[ip name]|].
  - apply Good_bind; [apply Good_emit; reflexivity|]. intros _.
    apply Good_bind; [exact IH|]. intros hs. apply Good_ret.
  - apply Good_emit_then_fail; [reflexivity|reflexivity|discriminate].
Qed.

Lemma Good_compute_diff : Good (compute_diff env).
Proof.
  intros w r w' H. rewrite compute_diff_eq in H.
  destruct (env_server_ids env) as [ms|]; cbv zeta in H; inversion H; subst;
    (exists [EvListNetworks (Some ms)] || exists [EvListNetworks None]);
    (split; [reflexivity|]); (split; [reflexivity|]).
  - split; [reflexivity|]. intros Hsv _. exact Hsv.
  - split; [reflexivity|]. intros Hsv _. exact Hsv.
Qed.

Lemma Good_network_change net allow : Good (network_change env zone net allow).
Proof.
  unfold network_change. apply Good_bind; [apply Good_get_state|]. intros st.
  destruct (negb _); [|apply Good_ret].
  destruct (negb (is_empty _)); [|apply Good_modify_save].
  destruct (negb allow); [apply Good_fail; discriminate|].
  apply Good_bind; [apply Good_drain|]. intros _. apply Good_modify_save.
Qed.

Lemma Good_main_body net allow : Good (main_body env zone net allow).
Proof.
  unfold main_body. apply Good_bind; [apply Good_network_change|]. intros _.
  apply Good_bind.
  - unfold add_stage. apply Good_bind; [apply Good_compute_diff|]. intros [adds rems].
    apply Good_bind; [apply Good_hydrate|]. intros hs. rewrite add_loop_guard_eq.
    apply Good_bind; [apply Good_add_loop|]. intros _. apply Good_ret.
  - intros rems. rewrite remove_stage_eq. apply Good_remove_loop.
Qed.
End GoodProgram.

Lemma saved_after_writes_nth l j ev :
  saved_after_writes l = true -> nth_error l j = Some ev -> dns_write_ok ev = true ->
  exists st b, nth_error l (S j) = Some (EvSave st b).
Proof.
  revert j. induction l as [|x rest IH]; intros j Hs Hj Hw; [destruct j; discriminate|].
  simpl in Hs. apply andb_prop in Hs as [H1 H2]. destruct j as [|j].
  - simpl in Hj. inversion Hj; subst. rewrite Hw in H1.
    destruct rest as [|[] rest]; try discriminate. simpl. eauto.
  - exact (IH j H2 Hj Hw).
Qed.

Lemma dns_failure_aborts ev : dns_failure ev = true -> aborts ev = true.
Proof. destruct ev as [| |? ? ? [|[]]|? ? ? []|? []|]; simpl; congruence. Qed.

Lemma forallb_nth {A} (p : A -> bool) l i x :
  forallb p l = true -> nth_error l i = Some x -> p x = true.
Proof.
  intros Hf Hi. rewrite forallb_forall in Hf. exact (Hf x (nth_error_In _ _ Hi)).
Qed.

(** Claim C7: if a DNS create, update or delete fails, the run aborts
    with the DNS error: the failed call is the last event of the run, the
    run ends in [Failed ErrDns] (or in the panic of the final save), every
    DNS write made before it was directly followed by a successful save,
    and the saved state equals the in-memory state at the abort. *)
Theorem main_body_dns_failure_aborts env zone net allow st0 file0 r w' i ev :
  main_body env zone net allow (mkWorld st0 st0 file0 []) = (r, w') ->
  nth_error (w_log w') i = Some ev -> dns_failure ev = true ->
  r = Err ErrDns /\ S i = length (w_log w') /\
  (fst (main_run env zone net allow st0 file0) = Failed ErrDns \/
   fst (main_run env zone net allow st0 file0) = Panicked) /\
  (forall j ev', nth_error (w_log w') j = Some ev' -> dns_write_ok ev' = true ->
     exists st, nth_error (w_log w') (S j) = Some (EvSave st true)) /\
  w_saved w' = w_state w'.
Proof.
  intros H Hi Hd.
  destruct (Good_main_body env zone net allow _ _ _ H) as [new [L [C [Sh V]]]].
  cbn [w_log w_saved w_state app] in L, V. rewrite L in Hi |- *.
  assert (Hr : r = Err ErrDns).
  { destruct r as [u|[]]; cbv beta iota delta [log_shape] in Sh; try reflexivity;
      try (pose proof (forallb_nth _ _ _ _ Sh Hi) as Hn; simpl in Hn;
           rewrite ?(dns_failure_aborts _ Hd), ?Hd in Hn; discriminate Hn). }
  subst r. destruct Sh as [pre [ev0 [Hn [Hd0 Hp]]]]. subst new.
  rewrite Hn in Hi, C |- *.
  split; [reflexivity|]. split.
  { destruct (Nat.lt_ge_cases i (length pre)) as [Hlt|Hge].
    - rewrite nth_error_app1 in Hi by exact Hlt.
      pose proof (forallb_nth _ _ _ _ Hp Hi) as Hna. simpl in Hna.
      rewrite (dns_failure_aborts _ Hd) in Hna. discriminate Hna.
    - rewrite nth_error_app2 in Hi by exact Hge. rewrite length_app. simpl.
      destruct (i - length pre) as [|k] eqn:Hk; [lia|destruct k; discriminate Hi]. }
  split.
  { unfold main_run. rewrite H. destruct (save env w') as [[u|e] w2]; simpl; auto. }
  split; [|apply V; [reflexivity|discriminate]].
  intros j ev' Hj Hw. unfold closed_log in C. apply andb_prop in C as [Cs _].
  destruct (saved_after_writes_nth _ _ _ Cs Hj Hw) as [st [b Hsj]].
  exists st. rewrite Hsj. destruct b; [reflexivity|].
  apply nth_error_In in Hsj. apply in_app_or in Hsj as [Hin|[Heq|[]]].
  - rewrite forallb_forall in Hp. specialize (Hp _ Hin). discriminate Hp.
  - subst ev0. discriminate Hd0.
Qed.

(** Claim C5: the ids scheduled for addition are exactly the member ids
    not in [servers_synced], the ids scheduled for removal exactly the ids
    of [servers_synced] that are not members, each without repetition. *)
Theorem compute_diff_exact_differences env w ms adds rems w' :
  env_server_ids env = Some ms ->
  compute_diff env w = (Ok (adds, rems), w') ->
  let known := server_ids_of (servers_synced (w_state w)) in
  NoDup adds /\ NoDup rems /\
  (forall x, In x adds <-> In x ms /\ ~ In x known) /\
  (forall x, In x rems <-> In x known /\ ~ In x ms).
Proof.
  intros Hms Hd. exact (compute_diff_sets env w ms adds rems w' Hms Hd).
Qed.

(** ** Witnesses *)

Ltac solve_nodup :=
  vm_compute; repeat (apply NoDup_cons; [simpl; intuition congruence|]); apply NoDup_nil.

Lemma main_run_synced_matches_members_witness :
  let o := main_run env_members zone_ex "net"%string false st_net EmptyString in
  NoDup (server_ids_of (servers_synced st_net)) /\
  env_server_ids env_members = Some [2; 1; 2]%Z /\
  o = (Done, snd o) /\
  NoDup (server_ids_of (servers_synced (w_state (snd o)))) /\
  (forall x, In x (server_ids_of (servers_synced (w_state (snd o)))) <-> In x [2; 1; 2]%Z).
Proof.
  intros o.
  assert (Hnd : NoDup (server_ids_of (servers_synced st_net))) by solve_nodup.
  assert (Ho : o = (Done, snd o)) by (vm_compute; reflexivity).
  split; [exact Hnd|]. split; [reflexivity|]. split; [exact Ho|].
  exact (main_run_synced_matches_members env_members zone_ex "net"%string false st_net EmptyString
           [2; 1; 2]%Z (snd o) Hnd eq_refl Ho).
Defined.

Lemma network_change_drains_then_renames_witness :
  let res := network_change env_db_delete_fails zone_ex "net"%string true
               (mkWorld st_old_net st_old_net EmptyString []) in
  let w' := snd res in
  let old := private_network_name st_old_net in
  let l := servers_synced st_old_net in
  private_network_name st_old_net <> "net"%string /\ servers_synced st_old_net <> [] /\
  NoDup (server_ids_of (servers_synced st_old_net)) /\ res = (Err ErrDns, w') /\
  (@Err unit ErrDns = Ok tt ->
     w_log w' = drain_trace zone_ex old l ++ [EvSave (mkState "net"%string []) true] /\
     w_state w' = mkState "net"%string [] /\ w_saved w' = mkState "net"%string []) /\
  (@Err unit ErrDns = Err ErrDns ->
     exists N s, nth_error l N = Some s /\
       w_log w' = firstn (2 * N) (drain_trace zone_ex old l) ++
                    [EvDelete (server_fqdn zone_ex s) false] /\
       w_state w' = mkState old (skipn N l) /\ w_saved w' = w_state w').
Proof.
  intros res w' old l.
  assert (H1 : private_network_name st_old_net <> "net"%string) by (vm_compute; discriminate).
  assert (H2 : servers_synced st_old_net <> []) by (vm_compute; discriminate).
  assert (H3 : NoDup (server_ids_of (servers_synced st_old_net))) by solve_nodup.
  assert (H4 : res = (Err ErrDns, w')) by (vm_compute; reflexivity).
  split; [exact H1|]. split; [exact H2|]. split; [exact H3|]. split; [exact H4|].
  exact (network_change_drains_then_renames env_db_delete_fails zone_ex "net"%string
           st_old_net EmptyString (Err ErrDns) w' H1 H2 H3 H4).
Defined.

Lemma main_run_change_denied_witness :
  let res := main_run env_all_ok zone_ex "net"%string false st_old_net EmptyString in
  let w' := snd res in
  private_network_name st_old_net <> "net"%string /\ servers_synced st_old_net <> [] /\
  res = (Failed ErrNetworkChangeDenied, w') /\
  (Failed ErrNetworkChangeDenied = Failed ErrNetworkChangeDenied \/
   Failed ErrNetworkChangeDenied = Panicked) /\
  w_log w' = [EvSave st_old_net (env_write env_all_ok [])] /\
  w_state w' = st_old_net /\ w_saved w' = st_old_net /\
  (EmptyString = serialize_state st_old_net -> w_file w' = EmptyString).
Proof.
  intros res w'.
  assert (H1 : private_network_name st_old_net <> "net"%string) by (vm_compute; discriminate).
  assert (H2 : servers_synced st_old_net <> []) by (vm_compute; discriminate).
  assert (H3 : res = (Failed ErrNetworkChangeDenied, w')) by (vm_compute; reflexivity).
  split; [exact H1|]. split; [exact H2|]. split; [exact H3|].
  exact (main_run_change_denied env_all_ok zone_ex "net"%string st_old_net EmptyString
           (Failed ErrNetworkChangeDenied) w' H1 H2 H3).
Defined.

Lemma add_server_create_then_update_witness :
  let w := world_of State_default in
  let res := add_server env_record_exists zone_ex srv_web w in
  let w' := snd res in
  let fqdn := server_fqdn zone_ex srv_web in
  env_parse_ip env_record_exists (ip_address srv_web) = Some "10.0.0.2"%string /\
  res = (Ok tt, w') /\
  w_state w' = w_state w /\
  exists cr rest,
    w_log w' = w_log w ++ EvCreate fqdn "10.0.0.2"%string 600 cr :: rest /\
    match cr with
    | DnsOk => rest = [] /\ Ok tt = Ok tt
    | DnsErr (ResponseError _) =>
        exists ok, rest = [EvUpdate fqdn "10.0.0.2"%string 600 ok] /\
                   Ok tt = (if ok then Ok tt else Err ErrDns)
    | DnsErr OtherError => rest = [] /\ Ok tt = Err ErrDns
    end.
Proof.
  intros w res w' fqdn.
  assert (H1 : env_parse_ip env_record_exists (ip_address srv_web) = Some "10.0.0.2"%string)
    by reflexivity.
  assert (H2 : res = (Ok tt, w')) by (vm_compute; reflexivity).
  split; [exact H1|]. split; [exact H2|].
  exact (add_server_create_then_update env_record_exists zone_ex srv_web "10.0.0.2"%string w
           (Ok tt) w' H1 H2).
Defined.

Lemma compute_diff_exact_differences_witness :
  let w := world_of st_net in
  let w' := snd (compute_diff env_members w) in
  let known := server_ids_of (servers_synced (w_state w)) in
  env_server_ids env_members = Some [2; 1; 2]%Z /\
  compute_diff env_members w = (Ok ([2]%Z, [3]%Z), w') /\
  NoDup [2]%Z /\ NoDup [3]%Z /\
  (forall x, In x [2]%Z <-> In x [2; 1; 2]%Z /\ ~ In x known) /\
  (forall x, In x [3]%Z <-> In x known /\ ~ In x [2; 1; 2]%Z).
Proof.
  intros w w' known.
  assert (H2 : compute_diff env_members w = (Ok ([2]%Z, [3]%Z), w'))
    by (vm_compute; reflexivity).
  split; [reflexivity|]. split; [exact H2|].
  exact (compute_diff_exact_differences env_members w [2; 1; 2]%Z [2]%Z [3]%Z w'
           eq_refl H2).
Defined.

Lemma main_body_dns_failure_aborts_witness :
  let res := main_body env_db_delete_fails zone_ex "net"%string false (mkWorld st_two st_two EmptyString []) in
  let w' := snd res in
  res = (Err ErrDns, w') /\
  nth_error (w_log w') 3 = Some (EvDelete "db.example.com"%string false) /\
  dns_failure (EvDelete "db.example.com"%string false) = true /\
  Err ErrDns = @Err unit ErrDns /\ 4 = length (w_log w') /\
  (fst (main_run env_db_delete_fails zone_ex "net"%string false st_two EmptyString) = Failed ErrDns \/
   fst (main_run env_db_delete_fails zone_ex "net"%string false st_two EmptyString) = Panicked) /\
  (forall j ev', nth_error (w_log w') j = Some ev' -> dns_write_ok ev' = true ->
     exists st, nth_error (w_log w') (S j) = Some (EvSave st true)) /\
  w_saved w' = w_state w'.
Proof.
  intros res w'.
  assert (H1 : res = (Err ErrDns, w')) by (vm_compute; reflexivity).
  assert (H2 : nth_error (w_log w') 3 = Some (EvDelete "db.example.com"%string false))
    by (vm_compute; reflexivity).
  split; [exact H1|]. split; [exact H2|]. split; [reflexivity|].
  exact (main_body_dns_failure_aborts env_db_delete_fails zone_ex "net"%string false st_two EmptyString
           (Err ErrDns) w' 3 (EvDelete "db.example.com"%string false) H1 H2 eq_refl).
Defined.

Lemma network_change_empty_adopts_witness :
  let w := world_of State_default in
  let res := network_change env_all_ok zone_ex "net"%string false w in
  let w' := snd res in
  private_network_name (w_state w) <> "net"%string /\ servers_synced (w_state w) = [] /\
  res = (Ok tt, w') /\
  w_log w' = w_log w ++ [EvSave (mkState "net"%string []) (env_write env_all_ok (w_log w))] /\
  w_state w' = mkState "net"%string [] /\
  (Ok tt = Ok tt <-> env_write env_all_ok (w_log w) = true) /\
  (Ok tt = Ok tt -> w_saved w' = mkState "net"%string []).
Proof.
  intros w res w'.
  assert (H1 : private_network_name (w_state w) <> "net"%string) by (vm_compute; discriminate).
  assert (H3 : res = (Ok tt, w')) by (vm_compute; reflexivity).
  split; [exact H1|]. split; [reflexivity|]. split; [exact H3|].
  exact (network_change_empty_adopts env_all_ok zone_ex "net"%string false w (Ok tt) w'
           H1 eq_refl H3).
Defined.

Lemma add_stage_appends_each_member_once_witness :
  let w := world_of st_net in
  let res := add_stage env_members zone_ex w in
  let w' := snd res in
  let known := server_ids_of (servers_synced (w_state w)) in
  env_server_ids env_members = Some [2; 1; 2]%Z /\ res = (fst res, w') /\
  exists added,
    servers_synced (w_state w') = servers_synced (w_state w) ++ added /\
    NoDup (server_ids_of added) /\
    (forall x, In x (server_ids_of added) -> In x [2; 1; 2]%Z /\ ~ In x known).
Proof.
  intros w res w' known.
  assert (H2 : res = (fst res, w')) by (vm_compute; reflexivity).
  split; [reflexivity|]. split; [exact H2|].
  exact (add_stage_appends_each_member_once env_members zone_ex w [2; 1; 2]%Z
           (fst res) w' eq_refl H2).
Defined.

(** * Further properties of the program *)

(** ** [StateWrapper::save] *)

Lemma length_append_str a b : String.length (append a b) = String.length a + String.length b.
Proof. induction a as [|c a IH]; simpl; [reflexivity|]. rewrite IH. reflexivity. Qed.

Lemma string_drop_length n s : String.length (string_drop n s) = String.length s - n.
Proof.
  revert s. induction n as [|n IH]; intros s; [simpl; lia|].
  destruct s as [|c s]; simpl; [reflexivity|]. apply IH.
Qed.

Lemma string_drop_append d x : string_drop (String.length d) (append d x) = x.
Proof. induction d as [|c d IH]; simpl; [reflexivity|exact IH]. Qed.

Lemma string_drop_long n s : String.length s <= n -> string_drop n s = EmptyString.
Proof.
  revert s. induction n as [|n IH]; intros s Hl.
  - destruct s; [reflexivity|simpl in Hl; lia].
  - destruct s as [|c s]; simpl; [reflexivity|]. apply IH. simpl in Hl. lia.
Qed.

(** A successful [save] writes the JSON of the in-memory state over the
    start of the file: the file then starts with that JSON, keeps the
    bytes of the old file past its length, and is as long as the longer
    of the two; the saved state is the in-memory one. *)
Theorem save_file_layout env w w' :
  save env w = (Ok tt, w') ->
  let data := serialize_state (w_state w) in
  w_file w' = append data (string_drop (String.length data) (w_file w)) /\
  String.length (w_file w') = Nat.max (String.length data) (String.length (w_file w)) /\
  w_saved w' = w_state w /\ w_state w' = w_state w.
Proof.
  intros H data. rewrite save_eq in H.
  destruct (env_write env (w_log w)); [|discriminate].
  apply (f_equal snd) in H. cbn [snd] in H. subst w'. cbn [w_file w_saved w_state].
  rewrite write_at_start_app. fold data. split; [reflexivity|].
  split; [|split; reflexivity].
  rewrite length_append_str, string_drop_length. lia.
Qed.

(** When the file is not longer than the JSON of the state (the first
    save into a new, empty file, or a state that grew), a successful save
    leaves exactly that JSON in the file. *)
Theorem save_exact_when_file_not_longer env w w' :
  String.length (w_file w) <= String.length (serialize_state (w_state w)) ->
  save env w = (Ok tt, w') ->
  w_file w' = serialize_state (w_state w).
Proof.
  intros Hl H. rewrite save_eq in H.
  destruct (env_write env (w_log w)); [|discriminate].
  apply (f_equal snd) in H. cbn [snd] in H. subst w'. cbn [w_file].
  rewrite write_at_start_app, (string_drop_long _ _ Hl). apply append_empty_r.
Qed.

(** Saving again without changing the state, whether that second save
    succeeds or fails, leaves the file and the saved state as the first
    successful save left them. *)
Theorem save_repeated_same_file env w w1 r2 w2 :
  save env w = (Ok tt, w1) ->
  save env w1 = (r2, w2) ->
  w_file w2 = w_file w1 /\ w_saved w2 = w_saved w1 /\ w_state w2 = w_state w1.
Proof.
  intros H1 H2. rewrite save_eq in H1.
  destruct (env_write env (w_log w)); [|discriminate].
  apply (f_equal snd) in H1. cbn [snd] in H1. subst w1.
  rewrite save_eq in H2. cbn [w_state w_saved w_file w_log] in H2.
  destruct (env_write env _); apply (f_equal snd) in H2; cbn [snd] in H2; subst w2;
    cbn [w_file w_saved w_state]; [|auto].
  rewrite !write_at_start_app, string_drop_append. auto.
Qed.

(** ** The steps of [main] *)



Lemma hydrate_cons_eq env x rest w :
  hydrate_server_list env (x :: rest) w =
  match env_get_server env x with
  | None => (Err ErrHCloud, log_event (EvGetServer x false) w)
  | Some (ip, name) =>
      match hydrate_server_list env rest (log_event (EvGetServer x true) w) with
      | (Ok hs, w1) => (Ok (mkServer x ip name :: hs), w1)
      | (Err e, w1) => (Err e, w1)
      end
  end.
Proof.
  simpl. destruct (env_get_server env x) as [[ip name]|]; [|reflexivity].
  unfold bind at 1, emit. unfold bind, ret.
  destruct (hydrate_server_list env rest _) as [[hs|e] w1]; reflexivity.
Qed.

(** A successful [hydrate_server_list] returns one server per requested
    id, in the requested order, with the IP and name the servers API gave
    for it, after exactly one successful lookup per id; the state is
    untouched. *)
Theorem hydrate_success env ids w hs w' :
  hydrate_server_list env ids w = (Ok hs, w') ->
  Forall2 (fun x s => id s = x /\ env_get_server env x = Some (ip_address s, hostname s))
    ids hs /\
  w_log w' = w_log w ++ map (fun x => EvGetServer x true) ids /\
  w_state w' = w_state w /\ w_saved w' = w_saved w.
Proof.
  revert w hs. induction ids as [|x rest IH]; intros w hs H.
  - simpl in H. inversion H; subst. rewrite app_nil_r. auto.
  - rewrite hydrate_cons_eq in H.
    destruct (env_get_server env x) as [[ip name]|] eqn:Hg; [|discriminate].
    destruct (hydrate_server_list env rest _) as [[hs1|e] w1] eqn:Hr; [|discriminate].
    inversion H; subst. destruct (IH _ _ Hr) as [F [L [S1 S2]]].
    cbn [w_log w_state w_saved log_event] in L, S1, S2.
    split; [constructor; [simpl; auto|exact F]|].
    rewrite L, <- app_assoc. auto.
Qed.

(** [hydrate_server_list] stops at the first id the servers API cannot
    resolve: it fails with the Hetzner error after one successful lookup
    per id before it and one failed lookup of that id, and looks up no id
    after it. *)
Theorem hydrate_failure_stops env ids w e w' :
  hydrate_server_list env ids w = (Err e, w') ->
  e = ErrHCloud /\
  exists pre x post, ids = pre ++ x :: post /\
    (forall y, In y pre -> env_get_server env y <> None) /\
    env_get_server env x = None /\
    w_log w' = w_log w ++ map (fun y => EvGetServer y true) pre ++ [EvGetServer x false] /\
    w_state w' = w_state w.
Proof.
  revert w. induction ids as [|x rest IH]; intros w H; [discriminate|].
  rewrite hydrate_cons_eq in H.
  destruct (env_get_server env x) as [[ip name]|] eqn:Hg.
  - destruct (hydrate_server_list env rest _) as [[hs1|e1] w1] eqn:Hr; [discriminate|].
    inversion H; subst e1 w1. destruct (IH _ Hr) as [He [pre [y [post [Hi [Hp [Hy [L S]]]]]]]].
    split; [exact He|]. exists (x :: pre), y, post. subst rest.
    split; [reflexivity|]. split.
    + intros z [<-|Hz]; [rewrite Hg; discriminate|exact (Hp z Hz)].
    + split; [exact Hy|]. cbn [w_log w_state log_event] in L, S.
      rewrite L, <- app_assoc. auto.
  - inversion H; subst. split; [reflexivity|]. exists [], x, rest. simpl.
    repeat split; auto.
Qed.

(** A successful removal stage removes from [servers_synced] exactly the
    servers whose id is scheduled for removal, keeps the others in their
    order, and keeps the network name. *)
Theorem remove_stage_keeps_order env zone rems w w' :
  remove_stage env zone rems w = (Ok tt, w') ->
  servers_synced (w_state w') =
    filter (fun s => negb (zmem (id s) rems)) (servers_synced (w_state w)) /\
  private_network_name (w_state w') = private_network_name (w_state w).
Proof. rewrite remove_stage_eq. apply remove_loop_ok. Qed.

Lemma network_change_same_name_eq env zone net allow w :
  private_network_name (w_state w) = net ->
  network_change env zone net allow w = (Ok tt, w).
Proof.
  intros Hn. unfold network_change, bind, get_state. rewrite Hn, String.eqb_refl.
  reflexivity.
Qed.

Lemma hs_difference_nil a b :
  (forall x, In x a -> In x b) -> hs_difference a b = [].
Proof.
  intros H. unfold hs_difference. induction a as [|x a IH]; [reflexivity|]. simpl.
  assert (Hx : zmem x b = true) by (apply zmem_In, H; left; reflexivity).
  rewrite Hx. simpl. apply IH. intros y Hy. apply H. right. exact Hy.
Qed.

Lemma main_body_in_sync_eq env zone net allow w ms :
  private_network_name (w_state w) = net ->
  env_server_ids env = Some ms ->
  (forall x, In x (server_ids_of (servers_synced (w_state w))) <-> In x ms) ->
  main_body env zone net allow w = (Ok tt, log_event (EvListNetworks (Some ms)) w).
Proof.
  intros Hn Hms Hset. unfold main_body. unfold bind at 1.
  rewrite (network_change_same_name_eq env zone net allow w Hn).
  unfold add_stage. unfold bind at 1. unfold bind at 1. rewrite compute_diff_eq, Hms.
  cbv zeta.
  rewrite !hs_difference_nil.
  - reflexivity.
  - intros x. rewrite !hs_collect_In. apply Hset.
  - intros x. rewrite !hs_collect_In. apply Hset.
Qed.

(** A run whose stored state is already in sync (the stored network name
    is the requested one and the stored ids are, as a set, the member ids)
    lists the network once and then makes no DNS call and no save, and
    changes nothing. *)
Theorem main_body_in_sync_no_calls env zone net allow w ms :
  private_network_name (w_state w) = net ->
  env_server_ids env = Some ms ->
  (forall x, In x (server_ids_of (servers_synced (w_state w))) <-> In x ms) ->
  main_body env zone net allow w = (Ok tt, log_event (EvListNetworks (Some ms)) w).
Proof. exact (main_body_in_sync_eq env zone net allow w ms). Qed.




(** ** Which records are deleted *)

Lemma NoDelete_ret {A} (a : A) : NoDelete (ret a).
Proof. intros w r w' H. inversion H; subst. exists []. rewrite app_nil_r. auto. Qed.

Lemma NoDelete_fail {A} e : NoDelete (@fail A e).
Proof. intros w r w' H. inversion H; subst. exists []. rewrite app_nil_r. auto. Qed.

Lemma NoDelete_get_state : NoDelete get_state.
Proof. intros w r w' H. inversion H; subst. exists []. rewrite app_nil_r. auto. Qed.

Lemma NoDelete_modify f : NoDelete (modify_state f).
Proof. intros w r w' H. inversion H; subst. exists []. rewrite app_nil_r. auto. Qed.

Lemma NoDelete_emit ev : is_delete ev = false -> NoDelete (emit ev).
Proof.
  intros Hd w r w' H. inversion H; subst. exists [ev]. simpl. rewrite Hd. auto.
Qed.

Lemma NoDelete_save env : NoDelete (save env).
Proof.
  intros w r w' H. rewrite save_eq in H.
  destruct (env_write env (w_log w)); inversion H; subst; eexists; split; reflexivity.
Qed.

Lemma NoDelete_bind {A B} (m : M A) (f : A -> M B) :
  NoDelete m -> (forall a, NoDelete (f a)) -> NoDelete (bind m f).
Proof.
  intros Hm Hf w r w'' H. apply bind_inv in H as [[a [w' [H1 H2]]]|[e [H1 He]]].
  - destruct (Hm _ _ _ H1) as [n1 [L1 F1]]. destruct (Hf a _ _ _ H2) as [n2 [L2 F2]].
    exists (n1 ++ n2). rewrite L2, L1, app_assoc, forallb_app, F1, F2. auto.
  - exact (Hm _ _ _ H1).
Qed.

Lemma NoDelete_add_server env zone s : NoDelete (add_server env zone s).
Proof.
  unfold add_server. destruct (env_parse_ip env (ip_address s)); [|apply NoDelete_fail].
  unfold dns_create. apply NoDelete_bind.
  - apply NoDelete_bind; [intros w r w' H; inversion H; subst; exists [];
                          rewrite app_nil_r; auto|].
    intros h. apply NoDelete_bind; [apply NoDelete_emit; reflexivity|]. intros _.
    apply NoDelete_ret.
  - intros [|[t|]]; [apply NoDelete_ret| |apply NoDelete_fail].
    unfold dns_update. apply NoDelete_bind.
    + apply NoDelete_bind; [intros w r w' H; inversion H; subst; exists [];
                            rewrite app_nil_r; auto|].
      intros h. apply NoDelete_bind; [apply NoDelete_emit; reflexivity|]. intros _.
      apply NoDelete_ret.
    + intros [|]; [apply NoDelete_ret|apply NoDelete_fail].
Qed.

Lemma NoDelete_add_stage env zone : NoDelete (add_stage env zone).
Proof.
  unfold add_stage. apply NoDelete_bind.
  - unfold compute_diff. apply NoDelete_bind; [apply NoDelete_get_state|]. intros st.
    apply NoDelete_bind; [|intros; apply NoDelete_ret].
    unfold server_ids. apply NoDelete_bind; [apply NoDelete_emit; reflexivity|].
    intros _. destruct (env_server_ids env); [apply NoDelete_ret|apply NoDelete_fail].
  - intros [adds rems]. apply NoDelete_bind.
    + induction adds as [|x rest IH]; simpl; [apply NoDelete_ret|].
      destruct (env_get_server env x) as [[ip name]|].
      * apply NoDelete_bind; [apply NoDelete_emit; reflexivity|]. intros _.
        apply NoDelete_bind; [exact IH|]. intros; apply NoDelete_ret.
      * apply NoDelete_bind; [apply NoDelete_emit; reflexivity|]. intros _.
        apply NoDelete_fail.
    + intros hs. apply NoDelete_bind; [|intros; apply NoDelete_ret].
      rewrite add_loop_guard_eq. induction hs as [|s rest IH]; simpl; [apply NoDelete_ret|].
      apply NoDelete_bind; [apply NoDelete_add_server|]. intros _.
      apply NoDelete_bind; [apply NoDelete_modify|]. intros _.
      apply NoDelete_bind; [apply NoDelete_save|]. intros _. exact IH.
Qed.

Lemma In_delete_nodelete f ok l :
  forallb (fun ev => negb (is_delete ev)) l = true -> ~ In (EvDelete f ok) l.
Proof.
  intros H Hin. rewrite forallb_forall in H. specialize (H _ Hin). discriminate H.
Qed.

Lemma remove_loop_deletes env zone ids w r w' :
  remove_loop env zone ids w = (r, w') ->
  exists new, w_log w' = w_log w ++ new /\
  forall f ok, In (EvDelete f ok) new ->
    exists s, In s (servers_synced (w_state w)) /\ In (id s) ids /\ f = server_fqdn zone s.
Proof.
  revert w r. induction ids as [|x rest IH]; intros w r H; simpl in H.
  - inversion H; subst. exists []. rewrite app_nil_r. split; [reflexivity|intros ? ? []].
  - unfold bind at 1, get_state in H.
    destruct (find (fun s => Z.eqb (id s) x) (servers_synced (w_state w))) as [s|] eqn:Hf.
    2: { inversion H; subst. exists []. rewrite app_nil_r. split; [reflexivity|intros ? ? []]. }
    apply find_some in Hf as [Hin Hid]. apply Z.eqb_eq in Hid.
    assert (Hs : forall b f ok, In (EvDelete f ok) [EvDelete (server_fqdn zone s) b] ->
               exists s0, In s0 (servers_synced (w_state w)) /\ In (id s0) (x :: rest) /\
                 f = server_fqdn zone s0).
    { intros b f ok [Heq|[]]. inversion Heq; subst. exists s. split; [exact Hin|].
      split; [left; reflexivity|reflexivity]. }
    unfold bind at 1 in H. rewrite remove_server_eq in H. cbv zeta in H.
    destruct (env_delete env (w_log w) (server_fqdn zone s)) eqn:Hd.
    2: { inversion H; subst. eexists. split; [reflexivity|]. exact (Hs false). }
    unfold bind at 1, modify_state in H. unfold bind at 1 in H. rewrite save_eq in H.
    cbn [w_state w_saved w_log w_file log_event] in H.
    destruct (env_write env _).
    2: { inversion H; subst. exists [EvDelete (server_fqdn zone s) true;
           EvSave (set_servers_synced (retain_not_id (id s) (servers_synced (w_state w)))
                     (w_state w)) false].
         cbn [w_log]. rewrite <- app_assoc. split; [reflexivity|].
         intros f ok [Heq|[Heq|[]]]; [|discriminate]. apply (Hs true f ok). left. exact Heq. }
    destruct (IH _ _ H) as [n2 [L2 F2]]. cbn [w_log w_state] in L2, F2.
    exists ([EvDelete (server_fqdn zone s) true;
             EvSave (set_servers_synced (retain_not_id (id s) (servers_synced (w_state w)))
                       (w_state w)) true] ++ n2).
    rewrite L2, <- !app_assoc. split; [reflexivity|].
    intros f ok Hin2. apply in_app_or in Hin2 as [[Heq|[Heq|[]]]|Hin2]; [|discriminate|].
    + apply (Hs true f ok). left. exact Heq.
    + destruct (F2 _ _ Hin2) as [s0 [Hs0 [Hid0 Hf0]]]. exists s0.
      unfold retain_not_id in Hs0. cbn [servers_synced set_servers_synced] in Hs0.
      apply filter_In in Hs0 as [Hs0 _]. split; [exact Hs0|]. split; [right; exact Hid0|exact Hf0].
Qed.

Lemma drain_servers_deletes env zone l w r w' :
  drain_servers env zone l w = (r, w') ->
  exists new, w_log w' = w_log w ++ new /\
  forall f ok, In (EvDelete f ok) new -> exists s, In s l /\ f = server_fqdn zone s.
Proof.
  revert w r. induction l as [|s rest IH]; intros w r H; simpl in H.
  - inversion H; subst. exists []. rewrite app_nil_r. split; [reflexivity|intros ? ? []].
  - unfold bind at 1 in H. rewrite remove_server_eq in H. cbv zeta in H.
    destruct (env_delete env (w_log w) (server_fqdn zone s)).
    2: { inversion H; subst. eexists. split; [reflexivity|].
         intros f ok [Heq|[]]. inversion Heq; subst. exists s. split; [left|]; reflexivity. }
    unfold bind at 1, modify_state in H. unfold bind at 1 in H. rewrite save_eq in H.
    cbn [w_state w_saved w_log w_file log_event] in H.
    destruct (env_write env _).
    2: { inversion H; subst. cbn [w_log]. rewrite <- app_assoc. eexists. split; [reflexivity|].
         intros f ok [Heq|[Heq|[]]]; [|discriminate]. inversion Heq; subst.
         exists s. split; [left|]; reflexivity. }
    destruct (IH _ _ H) as [n2 [L2 F2]]. cbn [w_log] in L2.
    rewrite L2, <- !app_assoc. eexists. split; [reflexivity|].
    intros f ok Hin. simpl in Hin. destruct Hin as [Heq|[Heq|Hin]]; [|discriminate|].
    + inversion Heq; subst. exists s. split; [left|]; reflexivity.
    + destruct (F2 _ _ Hin) as [s0 [Hs0 Hf0]]. exists s0. split; [right|]; assumption.
Qed.

Lemma network_change_deletes env zone net allow w r w' :
  network_change env zone net allow w = (r, w') ->
  exists new, w_log w' = w_log w ++ new /\
  (forall f ok, In (EvDelete f ok) new ->
     private_network_name (w_state w) <> net /\
     exists s, In s (servers_synced (w_state w)) /\ f = server_fqdn zone s).
Proof.
  intros H. destruct (String.eqb (private_network_name (w_state w)) net) eqn:He.
  - apply String.eqb_eq in He. rewrite (network_change_same_name_eq _ _ _ _ _ He) in H.
    inversion H; subst. exists []. rewrite app_nil_r. split; [reflexivity|intros ? ? []].
  - assert (Hne : private_network_name (w_state w) <> net)
      by (intros Habs; apply String.eqb_eq in Habs; congruence).
    unfold network_change, bind at 1, get_state in H. rewrite He in H. cbn [negb] in H.
    destruct (negb (is_empty (servers_synced (w_state w)))).
    2: { destruct (Good_modify_save env (set_private_network_name net) _ _ _ H)
           as [n [L _]]. exists n. split; [exact L|].
         unfold bind, modify_state in H. rewrite save_eq in H. cbn [w_log w_state] in H.
         destruct (env_write env _); inversion H; subst; cbn [w_log] in L;
           apply app_inv_head in L; subst n; intros f ok [Heq|[]]; discriminate. }
    destruct (negb allow).
    { inversion H; subst. exists []. rewrite app_nil_r. split; [reflexivity|intros ? ? []]. }
    apply bind_inv in H as [[u [w1 [H1 H2]]]|[e [H1 _]]].
    + destruct (drain_servers_deletes _ _ _ _ _ _ H1) as [n1 [L1 F1]].
      unfold bind, modify_state in H2. rewrite save_eq in H2. cbn [w_log w_state] in H2.
      exists (n1 ++ [EvSave (set_private_network_name net (w_state w1)) (env_write env (w_log w1))]).
      split.
      * destruct (env_write env _); inversion H2; subst; cbn [w_log]; rewrite L1, app_assoc;
          reflexivity.
      * intros f ok Hin. apply in_app_or in Hin as [Hin|[Heq|[]]]; [|discriminate].
        split; [exact Hne|exact (F1 _ _ Hin)].
    + destruct (drain_servers_deletes _ _ _ _ _ _ H1) as [n1 [L1 F1]].
      exists n1. split; [exact L1|]. intros f ok Hin. split; [exact Hne|exact (F1 _ _ Hin)].
Qed.

(** Every DNS delete of a run targets the record of a server that was in
    the stored [servers_synced]; when the stored network name is the
    requested one, that server is moreover not a member of the network:
    the program never deletes the record of a member, nor a record it has
    not recorded as synced. *)
Theorem main_body_deletes_only_synced env zone net allow st0 file0 ms r w' :
  env_server_ids env = Some ms ->
  main_body env zone net allow (mkWorld st0 st0 file0 []) = (r, w') ->
  forall f ok, In (EvDelete f ok) (w_log w') ->
  exists s, In s (servers_synced st0) /\ f = server_fqdn zone s /\
    (private_network_name st0 = net -> ~ In (id s) ms).
Proof.
  intros Hms H f ok Hin. unfold main_body in H.
  set (w0 := mkWorld st0 st0 file0 []) in H.
  assert (Hnc : forall wa r1, network_change env zone net allow w0 = (r1, wa) ->
            forall f ok, In (EvDelete f ok) (w_log wa) ->
            exists s, In s (servers_synced st0) /\ f = server_fqdn zone s /\
              (private_network_name st0 = net -> ~ In (id s) ms)).
  { intros wa r1 Hn f1 ok1 Hin1.
    destruct (network_change_deletes _ _ _ _ _ _ _ Hn) as [n [L F]].
    rewrite L in Hin1. simpl in Hin1. destruct (F _ _ Hin1) as [Hne [s [Hs Hf]]].
    exists s. split; [exact Hs|]. split; [exact Hf|]. intros Heq. contradiction. }
  apply bind_inv in H as [[u [wa [Hn H]]]|[e [Hn _]]]; [|exact (Hnc _ _ Hn _ _ Hin)].
  destruct u.
  apply bind_inv in H as [[rems [wb [Ha H]]]|[e [Ha _]]].
  2: { destruct (NoDelete_add_stage env zone _ _ _ Ha) as [n [L F]].
       rewrite L in Hin. apply in_app_or in Hin as [Hin|Hin];
         [exact (Hnc _ _ Hn _ _ Hin)|exfalso; exact (In_delete_nodelete _ _ _ F Hin)]. }
  destruct (NoDelete_add_stage env zone _ _ _ Ha) as [n2 [L2 F2]].
  rewrite remove_stage_eq in H.
  destruct (remove_loop_deletes _ _ _ _ _ _ H) as [n3 [L3 F3]].
  rewrite L3, L2 in Hin. apply in_app_or in Hin as [Hin|Hin].
  { apply in_app_or in Hin as [Hin|Hin];
      [exact (Hnc _ _ Hn _ _ Hin)|exfalso; exact (In_delete_nodelete _ _ _ F2 Hin)]. }
  destruct (F3 _ _ Hin) as [s [Hs [Hid Hf]]].
  destruct (add_stage_ok env zone wa ms rems wb Hms Ha)
    as [hs [Hsb [_ [_ [Hh [_ Hr]]]]]].
  apply Hr in Hid as [Hk Hnm].
  rewrite Hsb in Hs. apply in_app_or in Hs as [Hs|Hs].
  2: { exfalso. apply Hnm. apply (proj1 (Hh (id s))). apply in_map. exact Hs. }
  apply network_change_ok in Hn. cbn [w_state] in Hn. unfold w0 in Hn. cbn [w_state] in Hn.
  destruct (String.eqb (private_network_name st0) net) eqn:He.
  - rewrite Hn in Hs. exists s. split; [exact Hs|]. split; [exact Hf|]. intros _. exact Hnm.
  - rewrite Hn in Hs. destruct Hs.
Qed.

(** ** [HCloudWrapper] *)

Lemma hcloud_hydrate_loop_spec api nid acc ids h cs r h' cs' :
  HCloud.hydrate_loop api nid acc ids (h, cs) = (r, (h', cs')) ->
  h' = h /\ r <> inr HCloud.ErrUnwrap /\
  exists k, cs' = cs ++ map HCloud.CallGetServer (firstn k ids) /\
    (forall hs, r = inl hs -> k = length ids).
Proof.
  revert acc cs r. induction ids as [|x rest IH]; intros acc cs r H.
  - simpl in H. inversion H; subst. split; [reflexivity|]. split; [discriminate|].
    exists 0. simpl. rewrite app_nil_r. split; [reflexivity|intros; reflexivity].
  - simpl in H.
    destruct (HCloud.api_get_server api x) as [[si|]|];
      [destruct (HCloud.private_ip nid (HCloud.si_private_net si)) as [ip|]| |].
    + destruct (IH _ _ _ H) as [Hh [Hu [k [Hc Hk]]]]. split; [exact Hh|].
      split; [exact Hu|]. exists (S k). rewrite Hc, <- app_assoc. split; [reflexivity|].
      intros hs Hr. simpl. rewrite (Hk hs Hr). reflexivity.
    + inversion H; subst. split; [reflexivity|]. split; [discriminate|].
      exists 1. split; [reflexivity|intros hs Hr; discriminate].
    + inversion H; subst. split; [reflexivity|]. split; [discriminate|].
      exists 1. split; [reflexivity|intros hs Hr; discriminate].
    + inversion H; subst. split; [reflexivity|]. split; [discriminate|].
      exists 1. split; [reflexivity|intros hs Hr; discriminate].
Qed.


(** The [unwrap] of [network_info] in [server_ids] and in
    [hydrate_server_list] never panics: it only runs after
    [retrieve_network] has filled the cache. *)
Theorem hcloud_network_unwrap_never_fails api s :
  fst (HCloud.server_ids api s) <> inr HCloud.ErrUnwrap /\
  forall ids, fst (HCloud.hydrate_server_list api ids s) <> inr HCloud.ErrUnwrap.
Proof.
  destruct s as [h cs].
  assert (Hr : forall r s1, HCloud.retrieve_network api (h, cs) = (r, s1) ->
             (r = inl tt /\ exists n, HCloud.network_info (fst s1) = Some n) \/
             (r <> inl tt /\ r <> inr HCloud.ErrUnwrap)).
  { intros r s1 H. unfold HCloud.retrieve_network in H.
    destruct (HCloud.network_info h) as [n|] eqn:Hn.
    - inversion H; subst. left. split; [reflexivity|]. exists n. exact Hn.
    - destruct (HCloud.api_list_networks api (HCloud.network_name h)) as [[|n rest]|];
        inversion H; subst.
      + right. split; discriminate.
      + left. split; [reflexivity|]. exists n. reflexivity.
      + right. split; discriminate. }
  unfold HCloud.server_ids, HCloud.hydrate_server_list, HCloud.hbind.
  destruct (HCloud.retrieve_network api (h, cs)) as [r s1] eqn:Hs.
  destruct (Hr _ _ eq_refl) as [[-> [n Hn]]|[H1 H2]].
  - cbv [HCloud.network_unwrap HCloud.hret]. rewrite Hn. split; [simpl; discriminate|].
    intros ids. destruct s1 as [h1 cs1].
    destruct (HCloud.hydrate_loop api (HCloud.network_id n) [] ids (h1, cs1)) as [r2 [h2 cs2]] eqn:Hl.
    exact (proj1 (proj2 (hcloud_hydrate_loop_spec _ _ _ _ _ _ _ _ _ Hl))).
  - destruct r as [[]|e]; [contradiction|].
    assert (He : e <> HCloud.ErrUnwrap) by (intros ->; apply H2; reflexivity).
    simpl. split; [|intros _]; intros Habs; inversion Habs; contradiction.
Qed.

Lemma hcloud_private_ip_cons nid p rest :
  HCloud.private_ip nid (p :: rest) =
  if match HCloud.pn_network p with Some x => Z.eqb x nid | None => false end
  then HCloud.pn_ip p else HCloud.private_ip nid rest.
Proof.
  unfold HCloud.private_ip. simpl.
  destruct (match HCloud.pn_network p with Some x => Z.eqb x nid | None => false end);
    reflexivity.
Qed.

(** The private IP of a server is the IP of its first attachment to the
    network: [Some ip] exactly when the first entry of [private_net] on
    that network has the IP [ip]. An attachment without an IP therefore
    hides any later attachment to the same network. *)
Theorem hcloud_private_ip_first_attachment nid pns ip :
  HCloud.private_ip nid pns = Some ip <->
  exists pre n post, pns = pre ++ n :: post /\
    Forall (fun p => HCloud.pn_network p <> Some nid) pre /\
    HCloud.pn_network n = Some nid /\ HCloud.pn_ip n = Some ip.
Proof.
  induction pns as [|p rest IH].
  - split; [discriminate|]. intros [pre [n [post [Habs _]]]]. destruct pre; discriminate.
  - rewrite hcloud_private_ip_cons.
    destruct (HCloud.pn_network p) as [x|] eqn:Hp;
      [destruct (Z.eqb x nid) eqn:Hx|].
    + apply Z.eqb_eq in Hx. subst x. split.
      * intros Hip. exists [], p, rest. auto.
      * intros [pre [n [post [Heq [Hf [Hn Hi]]]]]].
        destruct pre as [|q pre]; simpl in Heq; inversion Heq; subst.
        -- exact Hi.
        -- inversion Hf; subst. contradiction.
    + rewrite IH. split.
      * intros [pre [n [post [Heq [Hf [Hn Hi]]]]]]. exists (p :: pre), n, post.
        rewrite Heq. split; [reflexivity|]. split; [|auto].
        constructor; [rewrite Hp; intros Habs; inversion Habs; subst; rewrite Z.eqb_refl in Hx;
                      discriminate|exact Hf].
      * intros [pre [n [post [Heq [Hf [Hn Hi]]]]]].
        destruct pre as [|q pre]; simpl in Heq; inversion Heq; subst.
        -- rewrite Hp in Hn. inversion Hn; subst. rewrite Z.eqb_refl in Hx. discriminate.
        -- inversion Hf; subst. exists pre, n, post. auto.
    + rewrite IH. split.
      * intros [pre [n [post [Heq [Hf [Hn Hi]]]]]]. exists (p :: pre), n, post.
        rewrite Heq. split; [reflexivity|]. split; [|auto].
        constructor; [rewrite Hp; discriminate|exact Hf].
      * intros [pre [n [post [Heq [Hf [Hn Hi]]]]]].
        destruct pre as [|q pre]; simpl in Heq; inversion Heq; subst.
        -- rewrite Hp in Hn. discriminate.
        -- inversion Hf; subst. exists pre, n, post. auto.
Qed.

Lemma hcloud_hydrate_loop_refines api env nid ids :
  (forall x, env_get_server env x = HCloud.get_server_view api nid x) ->
  forall acc s w hs,
    fst (HCloud.hydrate_loop api nid acc ids s) = inl hs <->
    exists hs', fst (hydrate_server_list env ids w) = Ok hs' /\ hs = acc ++ hs'.
Proof.
  intros Hv. induction ids as [|x rest IH]; intros acc [h cs] w hs.
  - simpl. split.
    + intros H. inversion H; subst. exists []. rewrite app_nil_r. auto.
    + intros [hs' [H1 H2]]. inversion H1; subst. rewrite app_nil_r. reflexivity.
  - rewrite hydrate_cons_eq, Hv. unfold HCloud.get_server_view. simpl.
    destruct (HCloud.api_get_server api x) as [[si|]|];
      [destruct (HCloud.private_ip nid (HCloud.si_private_net si)) as [ip|]| |].
    + rewrite (IH _ _ (log_event (EvGetServer x true) w)).
      destruct (hydrate_server_list env rest (log_event (EvGetServer x true) w))
        as [[hs1|e] w1]; simpl; split.
      * intros [hs' [H1 H2]]. inversion H1; subst. exists (mkServer x ip (HCloud.si_name si) :: hs').
        rewrite <- app_assoc. auto.
      * intros [hs' [H1 H2]]. inversion H1; subst. exists hs1. rewrite <- app_assoc. auto.
      * intros [hs' [H1 _]]. discriminate.
      * intros [hs' [H1 _]]. discriminate.
    + split; [discriminate|intros [hs' [H1 _]]; discriminate].
    + split; [discriminate|intros [hs' [H1 _]]; discriminate].
    + split; [discriminate|intros [hs' [H1 _]]; discriminate].
Qed.

(** The model of [main] reads the servers API through [env_get_server].
    When that view is the one the wrapper has of [get_server] (the private
    IP on the cached network and the name), [hydrate_server_list] of the
    wrapper succeeds with a list exactly when the model's
    [hydrate_server_list] succeeds with the same list. *)
Theorem hcloud_hydrate_refines api env n name cs ids w hs :
  (forall x, env_get_server env x = HCloud.get_server_view api (HCloud.network_id n) x) ->
  fst (HCloud.hydrate_server_list api ids (HCloud.mkHCloudWrapper name (Some n), cs)) = inl hs <->
  fst (hydrate_server_list env ids w) = Ok hs.
Proof.
  intros Hv. unfold HCloud.hydrate_server_list, HCloud.hbind, HCloud.retrieve_network.
  cbn [HCloud.network_info]. cbv [HCloud.network_unwrap]. cbn [fst HCloud.network_info].
  rewrite (hcloud_hydrate_loop_refines api env _ ids Hv [] _ w hs). simpl. split.
  - intros [hs' [H1 H2]]. subst. exact H1.
  - intros H. exists hs. auto.
Qed.

(** ** Witnesses of the further properties *)

Lemma save_file_layout_witness :
  let w := mkWorld (mkState "net"%string []) st_net (serialize_state st_net) [] in
  let w' := snd (save env_all_ok w) in
  let data := serialize_state (w_state w) in
  save env_all_ok w = (Ok tt, w') /\
  w_file w' = append data (string_drop (String.length data) (w_file w)) /\
  String.length (w_file w') = Nat.max (String.length data) (String.length (w_file w)) /\
  w_saved w' = w_state w /\ w_state w' = w_state w.
Proof.
  intros w w' data.
  assert (H : save env_all_ok w = (Ok tt, w')) by (vm_compute; reflexivity).
  split; [exact H|]. exact (save_file_layout env_all_ok w w' H).
Defined.

Lemma save_exact_when_file_not_longer_witness :
  let w := world_of st_net in
  let w' := snd (save env_all_ok w) in
  String.length (w_file w) <= String.length (serialize_state (w_state w)) /\
  save env_all_ok w = (Ok tt, w') /\
  w_file w' = serialize_state (w_state w).
Proof.
  intros w w'.
  assert (H1 : String.length (w_file w) <= String.length (serialize_state (w_state w)))
    by (vm_compute; lia).
  assert (H2 : save env_all_ok w = (Ok tt, w')) by (vm_compute; reflexivity).
  split; [exact H1|]. split; [exact H2|].
  exact (save_exact_when_file_not_longer env_all_ok w w' H1 H2).
Defined.

Lemma save_repeated_same_file_witness :
  let w := mkWorld (mkState "net"%string []) st_net (serialize_state st_net) [] in
  let w1 := snd (save env_all_ok w) in
  let res := save env_all_ok w1 in
  save env_all_ok w = (Ok tt, w1) /\ res = (fst res, snd res) /\
  w_file (snd res) = w_file w1 /\ w_saved (snd res) = w_saved w1 /\
  w_state (snd res) = w_state w1.
Proof.
  intros w w1 res.
  assert (H1 : save env_all_ok w = (Ok tt, w1)) by (vm_compute; reflexivity).
  assert (H2 : res = (fst res, snd res)) by (destruct res; reflexivity).
  split; [exact H1|]. split; [exact H2|].
  exact (save_repeated_same_file env_all_ok w w1 (fst res) (snd res) H1 H2).
Defined.



Lemma hydrate_success_witness :
  let w := world_of st_net in
  let w' := snd (hydrate_server_list env_members [2; 1]%Z w) in
  let hs := [srv_db; srv_web] in
  hydrate_server_list env_members [2; 1]%Z w = (Ok hs, w') /\
  Forall2 (fun x s => id s = x /\ env_get_server env_members x = Some (ip_address s, hostname s))
    [2; 1]%Z hs /\
  w_log w' = w_log w ++ map (fun x => EvGetServer x true) [2; 1]%Z /\
  w_state w' = w_state w /\ w_saved w' = w_saved w.
Proof.
  intros w w' hs.
  assert (H : hydrate_server_list env_members [2; 1]%Z w = (Ok hs, w'))
    by (vm_compute; reflexivity).
  split; [exact H|]. exact (hydrate_success env_members _ w hs w' H).
Defined.

Lemma hydrate_failure_stops_witness :
  let w := world_of st_net in
  let w' := snd (hydrate_server_list env_members [1; 5; 2]%Z w) in
  hydrate_server_list env_members [1; 5; 2]%Z w = (Err ErrHCloud, w') /\
  ErrHCloud = ErrHCloud /\
  exists pre x post, [1; 5; 2]%Z = pre ++ x :: post /\
    (forall y, In y pre -> env_get_server env_members y <> None) /\
    env_get_server env_members x = None /\
    w_log w' = w_log w ++ map (fun y => EvGetServer y true) pre ++ [EvGetServer x false] /\
    w_state w' = w_state w.
Proof.
  intros w w'.
  assert (H : hydrate_server_list env_members [1; 5; 2]%Z w = (Err ErrHCloud, w'))
    by (vm_compute; reflexivity).
  split; [exact H|]. exact (hydrate_failure_stops env_members _ w ErrHCloud w' H).
Defined.

Lemma remove_stage_keeps_order_witness :
  let w := world_of st_net in
  let w' := snd (remove_stage env_all_ok zone_ex [3]%Z w) in
  remove_stage env_all_ok zone_ex [3]%Z w = (Ok tt, w') /\
  servers_synced (w_state w') =
    filter (fun s => negb (zmem (id s) [3]%Z)) (servers_synced (w_state w)) /\
  private_network_name (w_state w') = private_network_name (w_state w).
Proof.
  intros w w'.
  assert (H : remove_stage env_all_ok zone_ex [3]%Z w = (Ok tt, w'))
    by (vm_compute; reflexivity).
  split; [exact H|]. exact (remove_stage_keeps_order env_all_ok zone_ex _ w w' H).
Defined.

Lemma main_body_in_sync_no_calls_witness :
  let w := world_of st_two in
  private_network_name (w_state w) = "net"%string /\
  env_server_ids env_members = Some [2; 1; 2]%Z /\
  (forall x, In x (server_ids_of (servers_synced (w_state w))) <-> In x [2; 1; 2]%Z) /\
  main_body env_members zone_ex "net"%string true w =
    (Ok tt, log_event (EvListNetworks (Some [2; 1; 2]%Z)) w).
Proof.
  intros w.
  assert (H1 : private_network_name (w_state w) = "net"%string) by reflexivity.
  assert (H3 : forall x, In x (server_ids_of (servers_synced (w_state w))) <->
                         In x [2; 1; 2]%Z) by (intros x; simpl; tauto).
  split; [exact H1|]. split; [reflexivity|]. split; [exact H3|].
  exact (main_body_in_sync_no_calls env_members zone_ex _ true w _ H1 eq_refl H3).
Defined.



Lemma main_body_deletes_only_synced_witness :
  let res := main_body env_members zone_ex "net"%string false (mkWorld st_net st_net EmptyString []) in
  env_server_ids env_members = Some [2; 1; 2]%Z /\
  res = (fst res, snd res) /\
  In (EvDelete "gone.example.com"%string true) (w_log (snd res)) /\
  exists s, In s (servers_synced st_net) /\ "gone.example.com"%string = server_fqdn zone_ex s /\
    (private_network_name st_net = "net"%string -> ~ In (id s) [2; 1; 2]%Z).
Proof.
  intros res.
  assert (H1 : res = (fst res, snd res)) by (destruct res; reflexivity).
  assert (H2 : In (EvDelete "gone.example.com"%string true) (w_log (snd res)))
    by (apply nth_error_In with (n := 4); vm_compute; reflexivity).
  split; [reflexivity|]. split; [exact H1|]. split; [exact H2|].
  exact (main_body_deletes_only_synced env_members zone_ex _ false st_net EmptyString _
           (fst res) (snd res) eq_refl H1 _ _ H2).
Defined.


Lemma hcloud_hydrate_refines_witness :
  (forall x, env_get_server env_hcloud_ex x = HCloud.get_server_view HCloud.api_ex
                                               (HCloud.network_id HCloud.net_a) x) /\
  (fst (HCloud.hydrate_server_list HCloud.api_ex [1; 2]%Z
          (HCloud.mkHCloudWrapper "net"%string (Some HCloud.net_a), [])) =
     inl [srv_web; srv_db] <->
   fst (hydrate_server_list env_hcloud_ex [1; 2]%Z (world_of st_net)) = Ok [srv_web; srv_db]).
Proof.
  assert (Hv : forall x, env_get_server env_hcloud_ex x =
                 HCloud.get_server_view HCloud.api_ex (HCloud.network_id HCloud.net_a) x)
    by (intros x; reflexivity).
  split; [exact Hv|].
  exact (hcloud_hydrate_refines HCloud.api_ex env_hcloud_ex HCloud.net_a _ [] _ _ _ Hv).
Defined.
